(** * node-dns-resolver: a shallow embedding of the DNS record validators

    The development follows the layout of the repository:
    - [Js]: the handful of JavaScript string and array primitives used;
    - [src/types.js]: record types and chain entries;
    - [Config]: [src/config.js], the process-wide allow-list store, with the
      arrays held in a heap so that references and copies differ;
    - [src/util.js]: the [DnsError] class;
    - [src/resolve.js]: the [DnsResolver] class, its web walk threading the
      shared chain array, its mail validators each with a chain of its own.

    The node resolver ([node:dns/promises]) is an oracle: a record of five
    functions from the queried hostname to either the [code] of the [Error]
    the promise rejects with, or the resolved values. *)

From Stdlib Require Import String Ascii NArith ZArith List Lia Permutation Sorted.
From stdpp Require Import base option list gmap strings pretty.
From Equations Require Import Equations.

Local Open Scope string_scope.
Local Open Scope Z_scope.
Local Open Scope list_scope.

(** ** JavaScript primitives *)

Module Js.

(** A value that is a string or [undefined]. *)
Definition value := option string.

(** [`${v}`] *)
Definition template (v : value) : string := default "undefined" v.

(** [s.startsWith(p)] *)
Definition startsWith (s p : string) : bool := String.prefix p s.

(** [s.includes(sub)] *)
Fixpoint includes (s sub : string) : bool :=
  String.prefix sub s ||
  match s with
  | EmptyString => false
  | String _ s' => includes s' sub
  end.

(** [v.join("")] *)
Definition join (v : list string) : string := String.concat "" v.

(** [l.includes(x)] on an array of strings *)
Definition Array_includes (l : list string) (x : string) : bool :=
  existsb (String.eqb x) l.

(** [l.sort(cmp)]: the sort of ECMAScript 2019 is stable; with a comparator
    that is a difference of keys its result is the stable insertion sort. *)
Fixpoint Array_insert {T} (cmp : T -> T -> Z) (x : T) (l : list T) : list T :=
  match l with
  | [] => [x]
  | y :: l' => if cmp x y <=? 0 then x :: y :: l' else y :: Array_insert cmp x l'
  end.

Fixpoint Array_sort {T} (cmp : T -> T -> Z) (l : list T) : list T :=
  match l with
  | [] => []
  | x :: l' => Array_insert cmp x (Array_sort cmp l')
  end.

End Js.

(** ** src/types.js *)

Inductive RecordType := RecTXT | RecMX | RecA | RecAAAA | RecCNAME.

#[export] Instance RecordType_eq_dec : EqDecision RecordType.
Proof. solve_decision. Defined.

(** [DnsChain.result]: ["valid"], ["invalid"] or an error code (strings), or
    the array of resolved values. *)
Inductive ChainResult :=
| ResStr (s : string)
| ResArr (l : list string).

Record DnsChain := {
  nr : nat;
  type : RecordType;
  hostname : Js.value;
  result : ChainResult
}.

Definition set_result (res : ChainResult) (e : DnsChain) : DnsChain :=
  {| nr := nr e; type := type e; hostname := hostname e; result := res |}.

(** ** src/config.js *)

Record DnsValidateConfig := {
  validIpv4 : list string;
  validIpv6 : list string;
  validCname : list string;
  validSpf : string;
  validMx : list string
}.

Module Config.

(** Arrays live in a heap; an object of the shape of [DnsValidateConfig]
    holds a reference for each list field and the SPF string itself. *)
Definition loc := positive.

Record Object := {
  ipv4_ref : loc;
  ipv6_ref : loc;
  cname_ref : loc;
  spf_val : string;
  mx_ref : loc
}.

(** [Partial<DnsValidateConfig>]: a field is [Some] when the guard of
    [config] accepts it ([Array.isArray], [typeof ... === "string"]). *)
Record Partial := {
  p_validIpv4 : option loc;
  p_validIpv6 : option loc;
  p_validCname : option loc;
  p_validSpf : option string;
  p_validMx : option loc
}.

Record Store := {
  arrays : gmap loc (list string);
  fresh : loc;
  configuration : Object
}.

Definition contents (h : gmap loc (list string)) (l : loc) : list string :=
  default [] (h !! l).

(** The value an object denotes in a heap. *)
Definition read (h : gmap loc (list string)) (o : Object) : DnsValidateConfig :=
  {| validIpv4 := contents h (ipv4_ref o);
     validIpv6 := contents h (ipv6_ref o);
     validCname := contents h (cname_ref o);
     validSpf := spf_val o;
     validMx := contents h (mx_ref o) |}.

(** The module is loaded with four distinct empty arrays. *)
Definition initial : Store :=
  {| arrays := {[ 1%positive := []; 2%positive := []; 3%positive := []; 4%positive := [] ]};
     fresh := 5%positive;
     configuration := {| ipv4_ref := 1%positive; ipv6_ref := 2%positive;
                         cname_ref := 3%positive; spf_val := "";
                         mx_ref := 4%positive |} |}.

(** [[]]: a new empty array. *)
Definition alloc (v : list string) (st : Store) : loc * Store :=
  (fresh st,
   {| arrays := <[fresh st := v]> (arrays st);
      fresh := Pos.succ (fresh st);
      configuration := configuration st |}).

(** [target.push(...source)] *)
Definition push_spread (target source : loc) (st : Store) : Store :=
  {| arrays := <[target := contents (arrays st) target ++ contents (arrays st) source]> (arrays st);
     fresh := fresh st;
     configuration := configuration st |}.

(** Any mutation of the array at [l] (push, splice, index or length
    assignment) leaves some new contents [v] there. *)
Definition write_array (l : loc) (v : list string) (st : Store) : Store :=
  {| arrays := <[l := v]> (arrays st);
     fresh := fresh st;
     configuration := configuration st |}.

Definition set_configuration (o : Object) (st : Store) : Store :=
  {| arrays := arrays st; fresh := fresh st; configuration := o |}.

Definition with_ipv4 (l : loc) (o : Object) : Object :=
  {| ipv4_ref := l; ipv6_ref := ipv6_ref o; cname_ref := cname_ref o;
     spf_val := spf_val o; mx_ref := mx_ref o |}.
Definition with_ipv6 (l : loc) (o : Object) : Object :=
  {| ipv4_ref := ipv4_ref o; ipv6_ref := l; cname_ref := cname_ref o;
     spf_val := spf_val o; mx_ref := mx_ref o |}.
Definition with_cname (l : loc) (o : Object) : Object :=
  {| ipv4_ref := ipv4_ref o; ipv6_ref := ipv6_ref o; cname_ref := l;
     spf_val := spf_val o; mx_ref := mx_ref o |}.
Definition with_spf (s : string) (o : Object) : Object :=
  {| ipv4_ref := ipv4_ref o; ipv6_ref := ipv6_ref o; cname_ref := cname_ref o;
     spf_val := s; mx_ref := mx_ref o |}.
Definition with_mx (l : loc) (o : Object) : Object :=
  {| ipv4_ref := ipv4_ref o; ipv6_ref := ipv6_ref o; cname_ref := cname_ref o;
     spf_val := spf_val o; mx_ref := l |}.

(** [if (guard) statement] *)
Definition when {T} (o : option T) (f : T -> Store -> Store) (st : Store) : Store :=
  match o with
  | Some x => f x st
  | None => st
  end.

(** [structuredClone] of one array: a reference met before is mapped to the
    copy already made, any other gets a fresh copy. *)
Definition clone_array (memo : list (loc * loc)) (l : loc) (st : Store)
  : loc * list (loc * loc) * Store :=
  match list_find (fun p => fst p = l) memo with
  | Some (_, (_, l')) => (l', memo, st)
  | None =>
      let '(l', st') := alloc (contents (arrays st) l) st in
      (l', (l, l') :: memo, st')
  end.

(** [get]: [structuredClone(configuration)]. *)
Definition get (st : Store) : Object * Store :=
  let o := configuration st in
  let '(a4, m, st) := clone_array [] (ipv4_ref o) st in
  let '(a6, m, st) := clone_array m (ipv6_ref o) st in
  let '(cn, m, st) := clone_array m (cname_ref o) st in
  let '(mx, m, st) := clone_array m (mx_ref o) st in
  ({| ipv4_ref := a4; ipv6_ref := a6; cname_ref := cn;
      spf_val := spf_val o; mx_ref := mx |}, st).

(** The statements of [config(config, append = true)] before its [return]. *)
Definition config_update (p : Partial) (append : bool) (st : Store) : Store :=
  if append then
    let st := when (p_validIpv4 p) (fun a st => push_spread (ipv4_ref (configuration st)) a st) st in
    let st := when (p_validIpv6 p) (fun a st => push_spread (ipv6_ref (configuration st)) a st) st in
    let st := when (p_validCname p) (fun a st => push_spread (cname_ref (configuration st)) a st) st in
    let st := when (p_validSpf p) (fun s st => set_configuration (with_spf s (configuration st)) st) st in
    let st := when (p_validMx p) (fun a st => push_spread (mx_ref (configuration st)) a st) st in
    st
  else
    let st := when (p_validIpv4 p) (fun a st => set_configuration (with_ipv4 a (configuration st)) st) st in
    let st := when (p_validIpv6 p) (fun a st => set_configuration (with_ipv6 a (configuration st)) st) st in
    let st := when (p_validCname p) (fun a st => set_configuration (with_cname a (configuration st)) st) st in
    let st := when (p_validSpf p) (fun s st => set_configuration (with_spf s (configuration st)) st) st in
    let st := when (p_validMx p) (fun a st => set_configuration (with_mx a (configuration st)) st) st in
    st.

(** [config(config, append = true)]: the updates, then [return get()]. *)
Definition config (p : Partial) (append : bool) (st : Store) : Object * Store :=
  get (config_update p append st).

(** The statements of [reset] before its [return]. *)
Definition reset_update (st : Store) : Store :=
  let '(l, st) := alloc [] st in
  let st := set_configuration (with_ipv4 l (configuration st)) st in
  let '(l, st) := alloc [] st in
  let st := set_configuration (with_ipv6 l (configuration st)) st in
  let '(l, st) := alloc [] st in
  let st := set_configuration (with_cname l (configuration st)) st in
  let st := set_configuration (with_spf "" (configuration st)) st in
  let '(l, st) := alloc [] st in
  let st := set_configuration (with_mx l (configuration st)) st in
  st.

(** [reset]: the assignments, then [return get()]. *)
Definition reset (st : Store) : Object * Store :=
  get (reset_update st).

End Config.

(** ** src/util.js *)

(** The plain [Error] objects that occur: a rejection of the node resolver
    (it carries a [code]), [new Error(message)], and the [TypeError] of a
    property read on [undefined]. *)
Inductive JsError :=
| NodeError (code : string)
| PlainError (message : string)
| TypeError (message : string).

(** [err instanceof Error] *)
Definition instanceof_Error (err : JsError) : bool := true.

(** [err.code], [undefined] when ["code" in err] is false *)
Definition JsError_code (err : JsError) : Js.value :=
  match err with
  | NodeError code => Some code
  | PlainError _ | TypeError _ => None
  end.

(** [DnsErrorInfo.error] *)
Inductive Cause :=
| CauseStr (s : string)
| CauseErr (e : JsError).

(** [DnsErrorInfo.expectedValue]: a string, a map by record type, or
    [undefined]. *)
Inductive Expected :=
| ExpStr (s : string)
| ExpMap (m : list (RecordType * Js.value))
| ExpUndefined.

Record DnsErrorInfo := {
  info_hostname : Js.value;
  info_recordType : RecordType;
  info_expectedValue : Expected;
  info_error : Cause;
  info_chain : list DnsChain
}.

Record DnsError := {
  message : string;
  status : Z;
  err_hostname : Js.value;
  recordType : RecordType;
  expectedValue : Expected;
  originalError : Cause;
  chain : list DnsChain
}.

(** [new DnsError(message, status, info)] *)
Definition new_DnsError (message : string) (status : Z) (info : DnsErrorInfo) : DnsError :=
  {| message := message;
     status := status;
     err_hostname := info_hostname info;
     recordType := info_recordType info;
     expectedValue :=
       match info_expectedValue info with
       | ExpStr s => ExpMap [(info_recordType info, Some s)]
       | e => e
       end;
     originalError := info_error info;
     chain := info_chain info |}.

(** What a promise of the mail validators rejects with. *)
Inductive Thrown :=
| ThrowError (e : JsError)
| ThrowDnsError (e : DnsError).

Definition instanceof_DnsError (err : Thrown) : bool :=
  match err with
  | ThrowDnsError _ => true
  | ThrowError _ => false
  end.

(** [err instanceof Error && "code" in err], with the code *)
Definition Thrown_code (err : Thrown) : Js.value :=
  match err with
  | ThrowError e => if instanceof_Error e then JsError_code e else None
  | ThrowDnsError _ => None
  end.

(** ** src/resolve.js *)

Record MxRecord := { priority : N; exchange : string }.

(** [node:dns/promises] [Resolver]: [inl code] is a rejection with an [Error]
    whose [code] is [code], [inr] the resolved values. *)
Record Resolver := {
  resolve4 : Js.value -> string + list string;
  resolve6 : Js.value -> string + list string;
  resolveCname : Js.value -> string + list string;
  resolveMx : Js.value -> string + list MxRecord;
  resolveTxt : Js.value -> string + list (list string)
}.

Definition Query := (RecordType * Js.value)%type.

Record DnsValid := {
  valid : bool;
  valid_hostname : Js.value;
  valid_recordType : RecordType;
  valid_expectedValue : Js.value
}.

(** [DnsExpectedValue & { expectedValue: string }] *)
Record DnsExpectedValue := {
  ev_hostname : Js.value;
  ev_recordType : RecordType;
  ev_expectedValue : Js.value
}.

(** [{...expectedValue, error, chain}] *)
Definition spread_info (e : DnsExpectedValue) (error : Cause) (chain : list DnsChain)
  : DnsErrorInfo :=
  {| info_hostname := ev_hostname e;
     info_recordType := ev_recordType e;
     info_expectedValue :=
       match ev_expectedValue e with
       | Some s => ExpStr s
       | None => ExpUndefined
       end;
     info_error := error;
     info_chain := chain |}.

(** [{...expectedValue, valid: true}] *)
Definition spread_valid (e : DnsExpectedValue) : DnsValid :=
  {| valid := true;
     valid_hostname := ev_hostname e;
     valid_recordType := ev_recordType e;
     valid_expectedValue := ev_expectedValue e |}.

Definition MAX_CNAME_DEPTH : nat := 16.

(** An instance: the private resolver and the configuration [c]. *)
Record DnsResolver := {
  resolver : Resolver;
  c : DnsValidateConfig
}.

(** [constructor(config)]: the given object, else a copy of the global
    configuration read at that moment. *)
Definition new_DnsResolver (r : Resolver) (config : option DnsValidateConfig)
    (st : Config.Store) : DnsResolver * Config.Store :=
  match config with
  | Some cfg => ({| resolver := r; c := cfg |}, st)
  | None =>
      let '(o, st') := Config.get st in
      ({| resolver := r; c := Config.read (Config.arrays st') o |}, st')
  end.

(** *** The web walk: the chain array is shared by reference through the
    calls; [w_queries] is the trace of the lookups issued to the resolver. *)
Record World := {
  w_chain : list DnsChain;
  w_queries : list Query
}.

(** [chain[chain.length] = entry], and the lookup that follows it *)
Definition enter (ty : RecordType) (host : Js.value) (w : World) : World :=
  {| w_chain := w_chain w ++
       [ {| nr := length (w_chain w); type := ty; hostname := host;
            result := ResStr "invalid" |} ];
     w_queries := w_queries w ++ [(ty, host)] |}.

(** [chain[chainIndex].result = res] *)
Definition assign_result (chainIndex : nat) (res : ChainResult) (w : World) : World :=
  {| w_chain := alter (set_result res) chainIndex (w_chain w);
     w_queries := w_queries w |}.

(** [addresses.filter(e => allowed.includes(e))] *)
Definition intersect (allowed addresses : list string) : list string :=
  List.filter (fun e => Js.Array_includes allowed e) addresses.

(** [if (intersection.length)] *)
Definition truthy_length {T} (l : list T) : bool :=
  match l with
  | [] => false
  | _ :: _ => true
  end.

(** [#validate4] *)
Definition validate4 (this : DnsResolver) (host : Js.value) (w : World)
  : (JsError + list string) * World :=
  let chainIndex := length (w_chain w) in
  let w := enter RecA host w in
  match resolve4 (resolver this) host with
  | inl code => (inl (NodeError code), assign_result chainIndex (ResStr code) w)
  | inr addresses =>
      let intersection := intersect (validIpv4 (c this)) addresses in
      if truthy_length intersection
      then (inr intersection, assign_result chainIndex (ResStr "valid") w)
      else (inl (PlainError "No valid IPv4 addresses found"),
            assign_result chainIndex (ResArr addresses) w)
  end.

(** [#validate6] *)
Definition validate6 (this : DnsResolver) (host : Js.value) (w : World)
  : (JsError + list string) * World :=
  let chainIndex := length (w_chain w) in
  let w := enter RecAAAA host w in
  match resolve6 (resolver this) host with
  | inl code => (inl (NodeError code), assign_result chainIndex (ResStr code) w)
  | inr addresses =>
      let intersection := intersect (validIpv6 (c this)) addresses in
      if truthy_length intersection
      then (inr intersection, assign_result chainIndex (ResStr "valid") w)
      else (inl (PlainError "No valid IPv6 addresses found"),
            assign_result chainIndex (ResArr addresses) w)
  end.

(** [#validateIp] *)
Definition validateIp (this : DnsResolver) (host : Js.value) (w : World)
  : (JsError + list string) * World :=
  match validate6 this host w with
  | (inr addresses, w) => (inr addresses, w)
  | (inl err, w) =>
      if negb (bool_decide (JsError_code err = Some "ENODATA"))
      then (inl err, w)
      else validate4 this host w
  end.

(** The [catch] block of [#validateCname]. *)
Definition validateCname_catch (this : DnsResolver) (host : Js.value)
    (chainIndex : nat) (err : JsError) (w : World) : (JsError + unit) * World :=
  if instanceof_Error err then (inl err, w)
  else
    match (if instanceof_Error err then JsError_code err else None) with
    | Some code =>
        let w := assign_result chainIndex (ResStr code) w in
        if String.eqb code "ENODATA"
        then match validateIp this host w with
             | (inr _, w) => (inr tt, w)
             | (inl e, w) => (inl e, w)
             end
        else (inl err, w)
    | None => (inl err, w)
    end.

(** [#validateCname]: every call appends to the chain and recurses only while
    the chain is shorter than [MAX_CNAME_DEPTH]. *)
Equations? validateCname (this : DnsResolver) (host : Js.value) (w : World)
  : (JsError + unit) * World
  by wf (MAX_CNAME_DEPTH - length (w_chain w))%nat lt :=
validateCname this host w with resolveCname (resolver this) host => {
  | inl code =>
      validateCname_catch this host (length (w_chain w)) (NodeError code)
        (enter RecCNAME host w);
  | inr addresses with truthy_length (intersect (validCname (c this)) addresses) => {
    | true =>
        (inr tt, assign_result (length (w_chain w)) (ResStr "valid")
                   (enter RecCNAME host w));
    | false with le_lt_dec MAX_CNAME_DEPTH
                   (length (w_chain (assign_result (length (w_chain w)) (ResArr addresses)
                                       (enter RecCNAME host w)))) => {
      | left _ =>
          validateCname_catch this host (length (w_chain w))
            (PlainError "CNAME record lookup exceeded maximum depth")
            (assign_result (length (w_chain w)) (ResArr addresses) (enter RecCNAME host w));
      | right _ =>
          match validateCname this (head addresses)
                  (assign_result (length (w_chain w)) (ResArr addresses)
                     (enter RecCNAME host w)) with
          | (inr _, w') => (inr tt, w')
          | (inl err, w') => validateCname_catch this host (length (w_chain w)) err w'
          end } } }.
Proof.
  all: match goal with H : (length _ < MAX_CNAME_DEPTH)%nat |- _ => revert H end.
  all: rewrite length_alter, length_app; unfold MAX_CNAME_DEPTH; cbn; lia.
Qed.

(** [validateWeb] *)
Definition validateWeb (this : DnsResolver) (host : string) : (DnsError + unit) * World :=
  match validateCname this (Some host) {| w_chain := []; w_queries := [] |} with
  | (inr _, w) => (inr tt, w)
  | (inl error, w) =>
      (inl (new_DnsError "Validating IP address failed" 400
              {| info_hostname := Some host;
                 info_error := CauseErr error;
                 info_chain := w_chain w;
                 info_recordType :=
                   match last (w_chain w) with
                   | Some e => type e
                   | None => RecCNAME
                   end;
                 info_expectedValue :=
                   ExpMap [ (RecCNAME, head (validCname (c this)));
                            (RecA, head (validIpv4 (c this)));
                            (RecAAAA, head (validIpv6 (c this))) ] |}), w)
  end.

(** *** The mail validators: each owns its chain; the second component of a
    result is the trace of the lookups it issued. *)

(** The [catch] block shared, up to the message and the [error] field, by
    [#validateDkim], [#validateSpf] and [#validateMx]. *)
Definition catch_lookup (message : string) (error : string -> Cause)
    (expectedValue : DnsExpectedValue) (chain : list DnsChain) (err : Thrown) : Thrown :=
  if instanceof_DnsError err then err
  else
    match Thrown_code err with
    | Some code =>
        let status := if String.eqb code "ENOTFOUND" then 404 else 500 in
        ThrowDnsError (new_DnsError message status (spread_info expectedValue (error code) chain))
    | None => err
    end.

Definition try_catch {T} (body : Thrown + T) (handler : Thrown -> Thrown) : Thrown + T :=
  match body with
  | inr v => inr v
  | inl err => inl (handler err)
  end.

(** [Object.keys(dkim).length] *)
Definition keys_length (dkim : gmap string string) : nat := size dkim.

(** [#validateDkim]: the argument is [undefined] or an object with string
    properties. *)
Definition validateDkim (this : DnsResolver) (dkim : option (gmap string string))
  : (Thrown + DnsValid) * list Query :=
  match dkim with
  | Some keys =>
      if negb (keys_length keys =? 2)%nat
      then (inl (ThrowDnsError (new_DnsError "No DKIM keys have been installed" 400
                   {| info_recordType := RecTXT; info_error := CauseStr "unavailable";
                      info_expectedValue := ExpStr ""; info_hostname := Some "";
                      info_chain := [] |})), [])
      else
        let selector := keys !! "selector" in
        let value := keys !! "publicKey" in
        let expectedValue :=
          {| ev_hostname := selector; ev_recordType := RecTXT; ev_expectedValue := value |} in
        let chain :=
          [ {| nr := 0; type := RecTXT; hostname := selector; result := ResStr "invalid" |} ] in
        let no_records := "No TXT records found for selector '" +:+ Js.template selector +:+ "'" in
        let body :=
          match resolveTxt (resolver this) selector with
          | inl code => inl (ThrowError (NodeError code))
          | inr records =>
              if (length records =? 0)%nat
              then inl (ThrowDnsError (new_DnsError no_records 404
                          (spread_info expectedValue (CauseStr "ENOTFOUND") chain)))
              else
                match list_find (fun v => Some (Js.join v) = value) records with
                | None =>
                    inl (ThrowDnsError (new_DnsError "Correct DKIM record was not found" 404
                           (spread_info expectedValue (CauseStr "ENOTFOUND") chain)))
                | Some _ => inr (spread_valid expectedValue)
                end
          end in
        (try_catch body
           (catch_lookup no_records (fun code => CauseErr (NodeError code)) expectedValue chain),
         [(RecTXT, selector)])
  | None =>
      (inl (ThrowDnsError (new_DnsError "No DKIM keys have been installed" 400
              {| info_recordType := RecTXT; info_error := CauseStr "unavailable";
                 info_expectedValue := ExpStr ""; info_hostname := Some "";
                 info_chain := [] |})), [])
  end.

(** [records.filter(v => v[0].startsWith("v=spf1"))]: the callback throws a
    [TypeError] on a record without a first segment. *)
Fixpoint filter_spf (records : list (list string)) : JsError + list (list string) :=
  match records with
  | [] => inr []
  | v :: rest =>
      match head v with
      | None => inl (TypeError "Cannot read properties of undefined (reading 'startsWith')")
      | Some v0 =>
          match filter_spf rest with
          | inl err => inl err
          | inr kept => inr (if Js.startsWith v0 "v=spf1" then v :: kept else kept)
          end
      end
  end.

(** [#validateSpf] *)
Definition validateSpf (this : DnsResolver) (host : string)
  : (Thrown + DnsValid) * list Query :=
  let validSpf := validSpf (c this) in
  let expectedValue :=
    {| ev_hostname := Some (host +:+ ".");
       ev_recordType := RecTXT;
       ev_expectedValue := Some ("v=spf1 include:" +:+ validSpf +:+ " -all") |} in
  let chain := [ {| nr := 0; type := RecMX; hostname := Some host; result := ResStr "invalid" |} ] in
  let body :=
    match resolveTxt (resolver this) (Some host) with
    | inl code => inl (ThrowError (NodeError code))
    | inr records =>
        match filter_spf records with
        | inl err => inl (ThrowError err)
        | inr spfRecords =>
            if (length spfRecords =? 0)%nat
            then inl (ThrowDnsError (new_DnsError "No SPF record found" 404
                        (spread_info expectedValue (CauseStr "ENOTFOUND") chain)))
            else if (1 <? length spfRecords)%nat
            then inl (ThrowDnsError (new_DnsError "Cannot have more than 1 SPF record" 409
                        (spread_info expectedValue (CauseStr "PERMERROR") chain)))
            else
              match head spfRecords with
              | None => inl (ThrowError (TypeError "Cannot read properties of undefined (reading 'join')"))
              | Some v =>
                  let spf := Js.join v in
                  if negb (Js.includes spf ("include:" +:+ validSpf))
                  then
                    let chain := alter (set_result (ResArr [spf])) 0%nat chain in
                    inl (ThrowDnsError (new_DnsError
                           ("'" +:+ validSpf +:+ "' is not included in spf record: '" +:+ spf +:+ "'")
                           404 (spread_info expectedValue (CauseStr "invalid") chain)))
                  else inr (spread_valid expectedValue)
              end
        end
    end in
  (try_catch body (catch_lookup "No SPF record found" CauseStr expectedValue chain),
   [(RecTXT, Some host)]).

(** [(a, b) => a.priority - b.priority] *)
Definition by_priority (a b : MxRecord) : Z := Z.of_N (priority a) - Z.of_N (priority b).

(** [`${e.priority} ${e.exchange}`] *)
Definition show_mx (e : MxRecord) : string := pretty (priority e) +:+ " " +:+ exchange e.

(** [#validateMx] *)
Definition validateMx (this : DnsResolver) (host : string)
  : (Thrown + DnsValid) * list Query :=
  let validMx := validMx (c this) in
  let expectedValue :=
    {| ev_hostname := Some (host +:+ ".");
       ev_recordType := RecMX;
       ev_expectedValue := Some ("0 " +:+ Js.template (head validMx) +:+ ".") |} in
  let chain := [ {| nr := 0; type := RecMX; hostname := Some host; result := ResStr "invalid" |} ] in
  let body :=
    match resolveMx (resolver this) (Some host) with
    | inl code => inl (ThrowError (NodeError code))
    | inr addresses =>
        let addresses := Js.Array_sort by_priority addresses in
        match head addresses with
        | None => inl (ThrowError (TypeError "Cannot read properties of undefined (reading 'exchange')"))
        | Some priorityDomain =>
            if negb (Js.Array_includes validMx (exchange priorityDomain))
            then
              let chain := alter (set_result (ResArr (map show_mx addresses))) 0%nat chain in
              inl (ThrowDnsError (new_DnsError
                     ("Please set '" +:+ Js.template (head validMx) +:+ "' as the MX with the highest priority.")
                     409 (spread_info expectedValue (CauseStr "invalid") chain)))
            else inr (spread_valid expectedValue)
        end
    end in
  (try_catch body
     (catch_lookup "No MX record found" (fun code => CauseErr (NodeError code)) expectedValue chain),
   [(RecMX, Some host)]).

(** *** [validateMail] *)

(** What a slot of [results] holds: the resolved value or the caught error. *)
Definition Slot := (Thrown + DnsValid)%type.

(** [results]: a slot is [None] until it is assigned. *)
Record MailResults := {
  spf : option Slot;
  mx : option Slot;
  dkim : option Slot
}.

Definition set_spf (v : Slot) (r : MailResults) : MailResults :=
  {| spf := Some v; mx := mx r; dkim := dkim r |}.
Definition set_mx (v : Slot) (r : MailResults) : MailResults :=
  {| spf := spf r; mx := Some v; dkim := dkim r |}.
Definition set_dkim (v : Slot) (r : MailResults) : MailResults :=
  {| spf := spf r; mx := mx r; dkim := Some v |}.

(** [await p.then(v => { results.x = v }).catch(err => { results.x = err })]:
    neither handler throws, so the promise of the wrapping function resolves. *)
Definition settle (p : Thrown + DnsValid) (assign : Slot -> MailResults -> MailResults)
    (results : MailResults) : Thrown + MailResults :=
  match p with
  | inr expectedValue => inr (assign (inr expectedValue) results)
  | inl err => inr (assign (inl err) results)
  end.

(** [validateMail]: the three lookups are issued in the order of the array
    given to [Promise.all]; the validators share no mutable state, so the
    order in which the answers arrive does not matter. [Promise.all] rejects
    when one of its promises does. *)
Definition validateMail (this : DnsResolver) (host : string)
    (dkim : option (gmap string string)) : (Thrown + MailResults) * list Query :=
  let results := {| spf := None; mx := None; dkim := None |} in
  let '(p_spf, q_spf) := validateSpf this host in
  let '(p_mx, q_mx) := validateMx this host in
  let '(p_dkim, q_dkim) := validateDkim this dkim in
  (match settle p_spf set_spf results with
   | inl err => inl err
   | inr results =>
       match settle p_mx set_mx results with
       | inl err => inl err
       | inr results =>
           match settle p_dkim set_dkim results with
           | inl err => inl err
           | inr results => inr results
           end
       end
   end,
   q_spf ++ q_mx ++ q_dkim).

(** ** Vocabulary of the statements *)

(** The chain entry of a CNAME lookup at position [k] whose answer
    [addresses] holds no allow-listed target. *)
Definition followed (k : nat) (host : Js.value) (addresses : list string) : DnsChain :=
  {| nr := k; type := RecCNAME; hostname := host; result := ResArr addresses |}.

(** [hops this n host k]: [n] successive CNAME answers, starting at [host],
    none with an allow-listed target, each followed through its first target;
    the result is the chain entries from position [k] on and the hostname the
    last answer leads to. [None] when the resolver does not answer so. *)
Fixpoint hops (this : DnsResolver) (n : nat) (host : Js.value) (k : nat)
  : option (list DnsChain * Js.value) :=
  match n with
  | O => Some ([], host)
  | S n' =>
      match resolveCname (resolver this) host with
      | inl _ => None
      | inr addresses =>
          if truthy_length (intersect (validCname (c this)) addresses) then None
          else
            match hops this n' (head addresses) (S k) with
            | Some (entries, last) => Some (followed k host addresses :: entries, last)
            | None => None
            end
      end
  end.

(** The lookups a list of chain entries stands for. *)
Definition lookups (entries : list DnsChain) : list Query :=
  map (fun e => (type e, hostname e)) entries.

(** A resolver whose CNAME answers never end: every name is an alias of the
    name with one more label character. *)
Definition alias_loop : Resolver :=
  {| resolve4 := fun _ => inl "ENODATA";
     resolve6 := fun _ => inl "ENODATA";
     resolveCname := fun h => inr [Js.template h +:+ "x"];
     resolveMx := fun _ => inl "ENODATA";
     resolveTxt := fun _ => inl "ENODATA" |}.

(** An allow-list with one CNAME target, reached from ["a"] by the fifteenth
    answer of [alias_loop]. *)
Definition fifteenth_allowed : DnsValidateConfig :=
  {| validIpv4 := []; validIpv6 := [];
     validCname := ["axxxxxxxxxxxxxxx"];
     validSpf := ""; validMx := [] |}.

(** A zone without CNAME and AAAA records whose A record is allow-listed. *)
Definition only_a_record : Resolver :=
  {| resolve4 := fun _ => inr ["127.0.0.1"];
     resolve6 := fun _ => inl "ENODATA";
     resolveCname := fun _ => inl "ENODATA";
     resolveMx := fun _ => inl "ENODATA";
     resolveTxt := fun _ => inl "ENODATA" |}.

Definition allow_localhost : DnsValidateConfig :=
  {| validIpv4 := ["127.0.0.1"]; validIpv6 := ["::1"];
     validCname := []; validSpf := ""; validMx := [] |}.

(** The records [filter_spf] keeps when no record is empty. *)
Definition spf_records (records : list (list string)) : list (list string) :=
  List.filter
    (fun v => match head v with
              | Some v0 => Js.startsWith v0 "v=spf1"
              | None => false
              end) records.

(** What the node resolver guarantees about its answers for [host]: an MX
    answer holds at least one record, and every TXT record at least one
    segment (an empty answer is the rejection [ENODATA]). *)
Definition well_formed_answers (this : DnsResolver) (host : Js.value) : Prop :=
  (forall addresses, resolveMx (resolver this) host = inr addresses -> addresses <> []) /\
  (forall records, resolveTxt (resolver this) host = inr records ->
                   Forall (fun v => v <> []) records).

(** A slot that holds a [DnsValid] or a [DnsError]. *)
Definition is_outcome (s : Slot) : bool :=
  match s with
  | inr _ => true
  | inl (ThrowDnsError _) => true
  | inl (ThrowError _) => false
  end.

(** The error of the precondition check of [#validateDkim]. *)
Definition dkim_not_installed : DnsError :=
  {| message := "No DKIM keys have been installed";
     status := 400;
     err_hostname := Some "";
     recordType := RecTXT;
     expectedValue := ExpMap [(RecTXT, Some "")];
     originalError := CauseStr "unavailable";
     chain := [] |}.

Definition le_priority (a b : MxRecord) : Prop := (priority a <= priority b)%N.

(** A mail zone: two MX records, one SPF record, one DKIM key at ["sel"]. *)
Definition mail_zone : Resolver :=
  {| resolve4 := fun _ => inl "ENODATA";
     resolve6 := fun _ => inl "ENODATA";
     resolveCname := fun _ => inl "ENODATA";
     resolveMx := fun _ => inr [ {| priority := 10; exchange := "b" |};
                                 {| priority := 5; exchange := "a" |} ];
     resolveTxt := fun h =>
       if bool_decide (h = Some "sel") then inr [["k1"; "k2"]]
       else inr [["v=spf1 include:evil.example -all"]; ["unrelated"]] |}.

Definition allow_mx (l : list string) (spf : string) : DnsValidateConfig :=
  {| validIpv4 := []; validIpv6 := []; validCname := []; validSpf := spf; validMx := l |}.

(** An instance on [mail_zone] with the given MX allow-list and SPF value. *)
Definition mail_instance (mxs : list string) (spfv : string) : DnsResolver :=
  {| resolver := mail_zone; c := allow_mx mxs spfv |}.

(** ** Vocabulary of the statements about the store *)

Module ConfigSpec.
Import Config.

(** The array references an object holds. *)
Definition refs (o : Object) : list loc :=
  [ipv4_ref o; ipv6_ref o; cname_ref o; mx_ref o].

(** The arrays an argument of [config] provides. *)
Definition provided (p : Partial) : list loc :=
  omap id [p_validIpv4 p; p_validIpv6 p; p_validCname p; p_validMx p].

(** The value of the live configuration. *)
Definition current (st : Store) : DnsValidateConfig :=
  read (arrays st) (configuration st).

(** The value of a copy returned together with the store it lives in. *)
Definition snapshot (r : Object * Store) : DnsValidateConfig :=
  read (arrays (snd r)) (fst r).

(** The references were handed out by the allocator of the store. *)
Definition allocated (st : Store) (ls : list loc) : Prop :=
  Forall (fun l => (l < fresh st)%positive) ls.

(** The four arrays of the configuration are distinct objects, and none
    of them is an array of the argument. *)
Definition separate (st : Store) (p : Partial) : Prop :=
  NoDup (refs (configuration st)) /\
  Forall (fun l => l ∉ refs (configuration st)) (provided p).

(** The merge on values, in the words of the specification. *)
Definition merge_list (append : bool) (old : list string) (new : option (list string))
  : list string :=
  match new with
  | None => old
  | Some l => if append then old ++ l else l
  end.

Definition merge_values (append : bool) (old : DnsValidateConfig)
    (h : gmap loc (list string)) (p : Partial) : DnsValidateConfig :=
  {| validIpv4 := merge_list append (validIpv4 old) (contents h <$> p_validIpv4 p);
     validIpv6 := merge_list append (validIpv6 old) (contents h <$> p_validIpv6 p);
     validCname := merge_list append (validCname old) (contents h <$> p_validCname p);
     validSpf := default (validSpf old) (p_validSpf p);
     validMx := merge_list append (validMx old) (contents h <$> p_validMx p) |}.

(** A caller mutating arrays: each write leaves new contents at one
    reference. *)
Definition mutate (writes : list (loc * list string)) (st : Store) : Store :=
  foldr (fun lv st => write_array (fst lv) (snd lv) st) st writes.

Definition empty_configuration : DnsValidateConfig :=
  {| validIpv4 := []; validIpv6 := []; validCname := []; validSpf := ""; validMx := [] |}.

(** [mergeGlobalConfig({validIpv4: ["1.1.1.1"]})] on the freshly loaded
    module: the array literal of the argument is allocated first. *)
Definition one_address : Partial * Store :=
  let '(l, st) := alloc ["1.1.1.1"] initial in
  ({| p_validIpv4 := Some l; p_validIpv6 := None; p_validCname := None;
      p_validSpf := None; p_validMx := None |}, st).

(** What holds of the store while [structuredClone] copies the arrays of
    the store [st0]: the configuration and the arrays allocated in [st0]
    are untouched, and every copy made so far is a newer array with the
    contents of its original. *)
Record cloning (st0 : Store) (memo : list (loc * loc)) (st : Store) : Prop := {
  cl_conf : configuration st = configuration st0;
  cl_fresh : (fresh st0 <= fresh st)%positive;
  cl_frame : forall l, (l < fresh st0)%positive -> arrays st !! l = arrays st0 !! l;
  cl_memo : Forall (fun p => (fresh st0 <= snd p < fresh st)%positive /\
                             contents (arrays st) (snd p) = contents (arrays st0) (fst p)) memo
}.

End ConfigSpec.

(** ** Vocabulary of the further statements *)

(** The chain entry of a lookup at position [k] that was rejected before
    any result was assigned, and of one that matched. *)
Definition pending (ty : RecordType) (k : nat) (host : Js.value) : DnsChain :=
  {| nr := k; type := ty; hostname := host; result := ResStr "invalid" |}.

Definition matched (ty : RecordType) (k : nat) (host : Js.value) : DnsChain :=
  {| nr := k; type := ty; hostname := host; result := ResStr "valid" |}.

(** A zone with two aliases in a row, the second with two targets, and
    addresses for the name at the end. *)
Definition alias_zone : Resolver :=
  {| resolve4 := fun h =>
       if bool_decide (h = Some "edge.example") then inr ["192.0.2.1"; "192.0.2.7"]
       else inl "ENODATA";
     resolve6 := fun h =>
       if bool_decide (h = Some "edge.example") then inr ["2001:db8::1"]
       else if bool_decide (h = Some "v4.example") then inl "ENODATA"
       else inl "ESERVFAIL";
     resolveCname := fun h =>
       if bool_decide (h = Some "www.example") then inr ["cdn.example"]
       else if bool_decide (h = Some "cdn.example") then inr ["edge.example"; "alt.example"]
       else if bool_decide (h = Some "edge.example") then inl "ENODATA"
       else inl "ENOTFOUND";
     resolveMx := fun _ => inl "ENODATA";
     resolveTxt := fun _ => inl "ENODATA" |}.

Definition allow_web (cnames v4 v6 : list string) : DnsValidateConfig :=
  {| validIpv4 := v4; validIpv6 := v6; validCname := cnames; validSpf := ""; validMx := [] |}.

Definition web_instance (cnames v4 v6 : list string) : DnsResolver :=
  {| resolver := alias_zone; c := allow_web cnames v4 v6 |}.

(** * Properties *)

(** ** The web walk *)

Section Web.

Variable this : DnsResolver.

(** The [catch] block of [#validateCname] rethrows whatever it catches:
    every caught value is an [Error], so its first test always fires. *)
Lemma validateCname_catch_rethrows host chainIndex err w :
  validateCname_catch this host chainIndex err w = (inl err, w).
Proof. reflexivity. Qed.

Lemma enter_assign ty host res w :
  assign_result (length (w_chain w)) res (enter ty host w) =
  {| w_chain := w_chain w ++
       [ {| nr := length (w_chain w); type := ty; hostname := host; result := res |} ];
     w_queries := w_queries w ++ [(ty, host)] |}.
Proof.
  unfold assign_result, enter; cbn [w_chain w_queries]. f_equal.
  rewrite <- (Nat.add_0_r (length (w_chain w))) at 1.
  rewrite alter_app_r. reflexivity.
Qed.

(** The body of [#validateCname], one call unfolded. *)
Lemma validateCname_step host w :
  validateCname this host w =
  match resolveCname (resolver this) host with
  | inl code => (inl (NodeError code), enter RecCNAME host w)
  | inr addresses =>
      if truthy_length (intersect (validCname (c this)) addresses)
      then (inr tt, assign_result (length (w_chain w)) (ResStr "valid") (enter RecCNAME host w))
      else
        if (MAX_CNAME_DEPTH <=? S (length (w_chain w)))%nat
        then (inl (PlainError "CNAME record lookup exceeded maximum depth"),
              assign_result (length (w_chain w)) (ResArr addresses) (enter RecCNAME host w))
        else validateCname this (head addresses)
               (assign_result (length (w_chain w)) (ResArr addresses) (enter RecCNAME host w))
  end.
Proof.
  simp validateCname.
  destruct (resolveCname (resolver this) host) as [code|addresses]; simp validateCname.
  - apply validateCname_catch_rethrows.
  - destruct (truthy_length _); simp validateCname; [reflexivity|].
    assert (Hlen : length (w_chain (assign_result (length (w_chain w)) (ResArr addresses)
                                      (enter RecCNAME host w))) = S (length (w_chain w))).
    { rewrite enter_assign. cbn [w_chain]. rewrite length_app. cbn. lia. }
    destruct (le_lt_dec _ _) as [Hle|Hlt]; simp validateCname; rewrite Hlen in *.
    + rewrite validateCname_catch_rethrows.
      destruct (Nat.leb_spec MAX_CNAME_DEPTH (S (length (w_chain w)))); [reflexivity|lia].
    + destruct (Nat.leb_spec MAX_CNAME_DEPTH (S (length (w_chain w)))); [lia|].
      destruct (validateCname_unfold_clause_1 _ _ _ _) as [[err|[]] w']; reflexivity.
Qed.

(** One non-matching answer below the depth limit: the call is the call on
    the first target, with one more entry in the chain. *)
Lemma validateCname_follow host w addresses :
  resolveCname (resolver this) host = inr addresses ->
  intersect (validCname (c this)) addresses = [] ->
  (S (length (w_chain w)) < MAX_CNAME_DEPTH)%nat ->
  validateCname this host w =
  validateCname this (head addresses)
    {| w_chain := w_chain w ++ [followed (length (w_chain w)) host addresses];
       w_queries := w_queries w ++ [(RecCNAME, host)] |}.
Proof.
  intros Hr Hi Hd. rewrite validateCname_step, Hr, Hi. cbn [truthy_length].
  destruct (Nat.leb_spec MAX_CNAME_DEPTH (S (length (w_chain w)))); [lia|].
  now rewrite enter_assign.
Qed.

(** The chain grows by exactly the lookups issued: each new entry has the
    type and hostname of one lookup, in order, and the next sequence
    number; all of them are CNAME lookups. *)
Lemma validateCname_trace host w :
  exists entries,
    w_chain (snd (validateCname this host w)) = w_chain w ++ entries /\
    w_queries (snd (validateCname this host w)) = w_queries w ++ lookups entries /\
    map nr entries = seq (length (w_chain w)) (length entries) /\
    Forall (fun e => type e = RecCNAME) entries.
Proof.
  remember (MAX_CNAME_DEPTH - length (w_chain w))%nat as fuel eqn:Hfuel.
  revert host w Hfuel.
  induction fuel as [fuel IH] using lt_wf_ind; intros host w Hfuel.
  rewrite validateCname_step.
  destruct (resolveCname (resolver this) host) as [code|addresses].
  { eexists [_]; cbn. repeat split; eauto. }
  destruct (truthy_length _).
  { rewrite enter_assign. eexists [_]; cbn. repeat split; eauto. }
  rewrite enter_assign.
  destruct (Nat.leb_spec MAX_CNAME_DEPTH (S (length (w_chain w)))) as [Hle|Hlt].
  { eexists [_]; cbn. repeat split; eauto. }
  match goal with |- context [validateCname this ?h ?w2] =>
    destruct (IH (MAX_CNAME_DEPTH - length (w_chain w2))%nat) with (host := h) (w := w2)
      as (entries & Hc & Hq & Hn & Ht)
  end.
  { subst fuel. cbn [w_chain]. rewrite length_app. unfold MAX_CNAME_DEPTH in *. cbn. lia. }
  { reflexivity. }
  cbn [w_chain w_queries] in *.
  eexists (_ :: entries). rewrite Hc, Hq, <- !app_assoc. cbn.
  repeat split; eauto.
  rewrite Hn, length_app. cbn. do 2 f_equal. lia.
Qed.

(** [#validateIp] is never reached: the walk issues CNAME lookups only. *)
Lemma validateWeb_cname_only host :
  Forall (fun q => fst q = RecCNAME) (w_queries (snd (validateWeb this host))).
Proof.
  unfold validateWeb.
  destruct (validateCname_trace (Some host) {| w_chain := []; w_queries := [] |})
    as (entries & _ & Hq & _ & Ht).
  destruct (validateCname _ _ _) as [[err|[]] w]; cbn [snd] in *; rewrite Hq; cbn;
    unfold lookups; rewrite Forall_map; eapply Forall_impl; eauto.
Qed.

(** A CNAME lookup that fails, with whatever code, ends the walk at once. *)
Lemma validateWeb_lookup_error host code :
  resolveCname (resolver this) (Some host) = inl code ->
  validateWeb this host =
  (inl {| message := "Validating IP address failed"; status := 400;
          err_hostname := Some host; recordType := RecCNAME;
          expectedValue := ExpMap [ (RecCNAME, head (validCname (c this)));
                                    (RecA, head (validIpv4 (c this)));
                                    (RecAAAA, head (validIpv6 (c this))) ];
          originalError := CauseErr (NodeError code);
          chain := [ {| nr := 0; type := RecCNAME; hostname := Some host;
                        result := ResStr "invalid" |} ] |},
   {| w_chain := [ {| nr := 0; type := RecCNAME; hostname := Some host;
                      result := ResStr "invalid" |} ];
      w_queries := [(RecCNAME, Some host)] |}).
Proof.
  intros Hr. unfold validateWeb. rewrite validateCname_step, Hr. reflexivity.
Qed.

(** What [#validateIp] does when it is called: AAAA first, A only after a
    "no data" answer. *)
Lemma validateIp_no_data_then_a host w addresses :
  resolve6 (resolver this) host = inl "ENODATA" ->
  resolve4 (resolver this) host = inr addresses ->
  intersect (validIpv4 (c this)) addresses <> [] ->
  fst (validateIp this host w) = inr (intersect (validIpv4 (c this)) addresses) /\
  w_queries (snd (validateIp this host w)) = w_queries w ++ [(RecAAAA, host); (RecA, host)].
Proof.
  intros H6 H4 Hi. unfold validateIp, validate6, validate4. rewrite H6. cbn.
  rewrite bool_decide_eq_true_2 by reflexivity. cbn.
  rewrite H4. destruct (intersect _ addresses); [congruence|]. cbn.
  split; [reflexivity|]. now rewrite <- app_assoc.
Qed.

Lemma validateIp_other_error host w code :
  resolve6 (resolver this) host = inl code ->
  code <> "ENODATA" ->
  fst (validateIp this host w) = inl (NodeError code) /\
  w_queries (snd (validateIp this host w)) = w_queries w ++ [(RecAAAA, host)].
Proof.
  intros H6 Hc. unfold validateIp, validate6. rewrite H6. cbn.
  rewrite bool_decide_eq_false_2 by congruence. now cbn.
Qed.

(** [n] non-matching answers that leave the chain below the limit are
    followed one after the other. *)
Lemma validateCname_hops n : forall host w entries last,
  hops this n host (length (w_chain w)) = Some (entries, last) ->
  (length (w_chain w) + n < MAX_CNAME_DEPTH)%nat ->
  validateCname this host w =
  validateCname this last
    {| w_chain := w_chain w ++ entries; w_queries := w_queries w ++ lookups entries |}.
Proof.
  induction n as [|n IH]; intros host w entries last Hh Hd; cbn in Hh.
  - injection Hh as <- <-. cbn. rewrite !app_nil_r. now destruct w.
  - destruct (resolveCname (resolver this) host) as [code|addresses] eqn:Hr; [discriminate|].
    destruct (intersect (validCname (c this)) addresses) eqn:Hi; [|discriminate].
    cbn in Hh.
    destruct (hops this n (head addresses) (S (length (w_chain w)))) as [[es l]|] eqn:Hn;
      [|discriminate].
    injection Hh as <- <-.
    rewrite (validateCname_follow _ _ _ Hr Hi) by lia.
    erewrite IH; cbn [w_chain w_queries].
    + rewrite <- !app_assoc. reflexivity.
    + rewrite length_app. cbn. rewrite Nat.add_1_r. exact Hn.
    + rewrite length_app. cbn. lia.
Qed.

Lemma hops_length n : forall host k entries last,
  hops this n host k = Some (entries, last) -> length entries = n.
Proof.
  induction n as [|n IH]; intros host k entries last Hh; cbn in Hh.
  - now injection Hh as <- <-.
  - destruct (resolveCname (resolver this) host) as [code|addresses]; [discriminate|].
    destruct (truthy_length _); [discriminate|].
    destruct (hops this n _ _) as [[es l]|] eqn:Hn; [|discriminate].
    injection Hh as <- <-. cbn. f_equal. eauto.
Qed.

(** Splitting off the last of [S n] hops. *)
Lemma hops_last n : forall host k entries last,
  hops this (S n) host k = Some (entries, last) ->
  exists entries' host' addresses,
    hops this n host k = Some (entries', host') /\
    resolveCname (resolver this) host' = inr addresses /\
    intersect (validCname (c this)) addresses = [] /\
    entries = entries' ++ [followed (k + n) host' addresses] /\
    last = head addresses.
Proof.
  induction n as [|n IH]; intros host k entries last Hh.
  - cbn in Hh.
    destruct (resolveCname (resolver this) host) as [code|addresses] eqn:Hr; [discriminate|].
    destruct (intersect (validCname (c this)) addresses) eqn:Hi; [|discriminate].
    cbn in Hh. injection Hh as <- <-.
    exists [], host, addresses. rewrite Nat.add_0_r. cbn. auto.
  - remember (S n) as m. cbn in Hh.
    destruct (resolveCname (resolver this) host) as [code|addresses] eqn:Hr; [discriminate|].
    destruct (intersect (validCname (c this)) addresses) eqn:Hi; [|discriminate].
    cbn in Hh.
    destruct (hops this m (head addresses) (S k)) as [[es l]|] eqn:Hn; [|discriminate].
    injection Hh as <- <-. subst m.
    destruct (IH _ _ _ _ Hn) as (es' & h' & a' & H1 & H2 & H3 & H4 & H5).
    exists (followed k host addresses :: es'), h', a'.
    cbn. rewrite Hr, Hi. cbn. rewrite H1. subst es. repeat split; auto.
    cbn. do 4 f_equal. lia.
Qed.

End Web.

Section WebClaims.

Variable this : DnsResolver.

Lemma validateCname_depth_exceeded host w addresses :
  resolveCname (resolver this) host = inr addresses ->
  intersect (validCname (c this)) addresses = [] ->
  (MAX_CNAME_DEPTH <= S (length (w_chain w)))%nat ->
  validateCname this host w =
  (inl (PlainError "CNAME record lookup exceeded maximum depth"),
   {| w_chain := w_chain w ++ [followed (length (w_chain w)) host addresses];
      w_queries := w_queries w ++ [(RecCNAME, host)] |}).
Proof.
  intros Hr Hi Hd. rewrite validateCname_step, Hr, Hi. cbn [truthy_length].
  destruct (Nat.leb_spec MAX_CNAME_DEPTH (S (length (w_chain w)))); [|lia].
  now rewrite enter_assign.
Qed.

Lemma validateCname_match host w addresses :
  resolveCname (resolver this) host = inr addresses ->
  intersect (validCname (c this)) addresses <> [] ->
  validateCname this host w =
  (inr tt,
   {| w_chain := w_chain w ++
        [ {| nr := length (w_chain w); type := RecCNAME; hostname := host;
             result := ResStr "valid" |} ];
      w_queries := w_queries w ++ [(RecCNAME, host)] |}).
Proof.
  intros Hr Hi. rewrite validateCname_step, Hr.
  destruct (intersect _ addresses); [congruence|]. cbn [truthy_length].
  now rewrite enter_assign.
Qed.

(** C2. Each lookup of the walk appends exactly one chain entry, of the
    type and hostname of the lookup and with the next sequence number.
    A non-matching answer below the depth limit makes the walker continue
    with the first returned target. Sixteen non-matching hops make
    [validateWeb] fail with the error "CNAME record lookup exceeded maximum
    depth" as cause and the sixteen entries as chain. A walk of [n + 1]
    hops, [n < 16] (fifteen hops for [n = 14]), whose last answer holds an
    allow-listed target succeeds, and the entry of that hop is "valid". *)
Theorem cname_walk_depth_limit :
  (forall host w,
      exists entries,
        w_chain (snd (validateCname this host w)) = w_chain w ++ entries /\
        w_queries (snd (validateCname this host w)) = w_queries w ++ lookups entries /\
        map nr entries = seq (length (w_chain w)) (length entries)) /\
  (forall host w addresses,
      resolveCname (resolver this) host = inr addresses ->
      intersect (validCname (c this)) addresses = [] ->
      (S (length (w_chain w)) < MAX_CNAME_DEPTH)%nat ->
      validateCname this host w =
      validateCname this (head addresses)
        {| w_chain := w_chain w ++ [followed (length (w_chain w)) host addresses];
           w_queries := w_queries w ++ [(RecCNAME, host)] |}) /\
  (forall host entries last,
      hops this 16 (Some host) 0 = Some (entries, last) ->
      exists e,
        validateWeb this host =
          (inl e, {| w_chain := entries; w_queries := lookups entries |}) /\
        originalError e =
          CauseErr (PlainError "CNAME record lookup exceeded maximum depth") /\
        chain e = entries /\
        length entries = 16%nat) /\
  (forall n host entries last addresses,
      (n < MAX_CNAME_DEPTH)%nat ->
      hops this n (Some host) 0 = Some (entries, last) ->
      resolveCname (resolver this) last = inr addresses ->
      intersect (validCname (c this)) addresses <> [] ->
      validateWeb this host =
        (inr tt,
         {| w_chain := entries ++
              [ {| nr := n; type := RecCNAME; hostname := last;
                   result := ResStr "valid" |} ];
            w_queries := lookups entries ++ [(RecCNAME, last)] |})).
Proof.
  split; [|split; [|split]].
  - intros host w. destruct (validateCname_trace this host w) as (entries & ? & ? & ? & _).
    eauto.
  - apply validateCname_follow.
  - intros host entries last Hh.
    destruct (hops_last this _ _ _ _ _ Hh) as (es & h' & a & Hes & Hr & Hi & -> & ->).
    pose proof (hops_length this _ _ _ _ _ Hes) as Hlen.
    unfold validateWeb.
    rewrite (validateCname_hops this 15 (Some host) {| w_chain := []; w_queries := [] |} es h')
      by (try exact Hes; unfold MAX_CNAME_DEPTH; cbn; lia).
    rewrite (validateCname_depth_exceeded _ _ _ Hr Hi)
      by (cbn; rewrite Hlen; unfold MAX_CNAME_DEPTH; lia).
    cbn [w_chain w_queries app]. rewrite Hlen.
    eexists. split; [|split; [|split]].
    + unfold lookups. rewrite map_app. reflexivity.
    + reflexivity.
    + reflexivity.
    + rewrite length_app, Hlen. reflexivity.
  - intros n host entries last addresses Hn Hh Hr Hi.
    pose proof (hops_length this _ _ _ _ _ Hh) as Hlen.
    unfold validateWeb.
    rewrite (validateCname_hops this n (Some host) {| w_chain := []; w_queries := [] |}
               entries last) by (try exact Hh; cbn; lia).
    rewrite (validateCname_match _ _ _ Hr Hi).
    cbn [w_chain w_queries app]. now rewrite Hlen.
Qed.

End WebClaims.

(** The limit at work on [alias_loop], walked from ["a"]. *)
Lemma cname_walk_depth_limit_witness :
  (exists e,
      fst (validateWeb {| resolver := alias_loop; c := allow_localhost |} "a") = inl e /\
      originalError e = CauseErr (PlainError "CNAME record lookup exceeded maximum depth") /\
      length (chain e) = 16%nat) /\
  fst (validateWeb {| resolver := alias_loop; c := fifteenth_allowed |} "a") = inr tt /\
  (last (w_chain (snd (validateWeb {| resolver := alias_loop; c := fifteenth_allowed |} "a"))) =
   Some {| nr := 14; type := RecCNAME; hostname := Some "axxxxxxxxxxxxxx";
           result := ResStr "valid" |}).
Proof.
  split.
  - destruct (cname_walk_depth_limit {| resolver := alias_loop; c := allow_localhost |})
      as (_ & _ & H16 & _).
    edestruct (H16 "a") as (e & He & Hcause & Hchain & Hlen).
    { vm_compute. reflexivity. }
    exists e. rewrite He, Hchain. auto.
  - destruct (cname_walk_depth_limit {| resolver := alias_loop; c := fifteenth_allowed |})
      as (_ & _ & _ & H15).
    erewrite (H15 14%nat "a").
    + split; [reflexivity|]. cbn [snd w_chain]. apply last_snoc.
    + unfold MAX_CNAME_DEPTH. lia.
    + vm_compute. reflexivity.
    + vm_compute. reflexivity.
    + vm_compute. discriminate.
Defined.

(** C1. A CNAME lookup that ends in "no data" does not reach the IP step:
    for a name without CNAME and AAAA records whose A record is
    allow-listed, [validateWeb] fails after the single CNAME lookup, its
    chain entry still "invalid", although [#validateIp] on that name would
    have succeeded through the A lookup. *)
Theorem validateWeb_no_data_skips_ip_fallback :
  let this := {| resolver := only_a_record; c := allow_localhost |} in
  resolveCname (resolver this) (Some "example.com") = inl "ENODATA" /\
  validateWeb this "example.com" =
    (inl {| message := "Validating IP address failed"; status := 400;
            err_hostname := Some "example.com"; recordType := RecCNAME;
            expectedValue := ExpMap [ (RecCNAME, None); (RecA, Some "127.0.0.1");
                                      (RecAAAA, Some "::1") ];
            originalError := CauseErr (NodeError "ENODATA");
            chain := [ {| nr := 0; type := RecCNAME; hostname := Some "example.com";
                          result := ResStr "invalid" |} ] |},
     {| w_chain := [ {| nr := 0; type := RecCNAME; hostname := Some "example.com";
                        result := ResStr "invalid" |} ];
        w_queries := [(RecCNAME, Some "example.com")] |}) /\
  validateIp this (Some "example.com") {| w_chain := []; w_queries := [] |} =
    (inr ["127.0.0.1"],
     {| w_chain := [ {| nr := 0; type := RecAAAA; hostname := Some "example.com";
                        result := ResStr "ENODATA" |};
                     {| nr := 1; type := RecA; hostname := Some "example.com";
                        result := ResStr "valid" |} ];
        w_queries := [(RecAAAA, Some "example.com"); (RecA, Some "example.com")] |}).
Proof.
  cbv zeta. split; [reflexivity|]. split.
  - now rewrite (validateWeb_lookup_error _ _ "ENODATA").
  - vm_compute. reflexivity.
Qed.

(** ** JavaScript primitives *)




Lemma Array_includes_elem_of l x : Js.Array_includes l x = true <-> x ∈ l.
Proof.
  unfold Js.Array_includes. rewrite existsb_exists, list_elem_of_In. split.
  - intros (y & Hy & He). apply String.eqb_eq in He. now subst.
  - intros Hx. exists x. split; [assumption | apply String.eqb_refl].
Qed.

Lemma Array_insert_perm {T} (cmp : T -> T -> Z) x l :
  Permutation (Js.Array_insert cmp x l) (x :: l).
Proof.
  induction l as [|y l IH]; cbn; [reflexivity|].
  destruct (cmp x y <=? 0); [reflexivity|].
  rewrite IH. apply perm_swap.
Qed.

Lemma Array_sort_perm {T} (cmp : T -> T -> Z) l :
  Permutation (Js.Array_sort cmp l) l.
Proof.
  induction l as [|x l IH]; cbn; [reflexivity|].
  now rewrite Array_insert_perm, IH.
Qed.

Lemma by_priority_le a b : (by_priority a b <=? 0) = true <-> le_priority a b.
Proof. unfold by_priority, le_priority. rewrite Z.leb_le. lia. Qed.

Lemma Array_insert_sorted x l :
  StronglySorted le_priority l ->
  StronglySorted le_priority (Js.Array_insert by_priority x l).
Proof.
  induction 1 as [|y l Hs IH Hy]; cbn.
  - repeat constructor.
  - destruct (by_priority x y <=? 0) eqn:Hc.
    + apply by_priority_le in Hc. constructor; [now constructor|].
      constructor; [assumption|].
      eapply Forall_impl; [exact Hy|]. unfold le_priority in *. cbn. intros; lia.
    + constructor; [assumption|].
      rewrite Array_insert_perm. constructor; [|assumption].
      assert (~ le_priority x y) by (rewrite <- by_priority_le; congruence).
      unfold le_priority in *. lia.
Qed.

Lemma Array_sort_sorted l : StronglySorted le_priority (Js.Array_sort by_priority l).
Proof.
  induction l as [|x l IH]; cbn; [constructor | now apply Array_insert_sorted].
Qed.

(** The first element after the sort is the first, in the order given, of
    the records with the lowest priority. *)
Lemma Array_sort_first l :
  l <> [] ->
  exists d before after,
    l = before ++ d :: after /\
    head (Js.Array_sort by_priority l) = Some d /\
    Forall (fun x => (priority d < priority x)%N) before /\
    Forall (fun x => (priority d <= priority x)%N) after.
Proof.
  induction l as [|x l IH]; [congruence | intros _].
  destruct l as [|y l].
  { exists x, [], []. cbn. auto. }
  destruct IH as (d & before & after & Hl & Hh & Hb & Ha); [congruence|].
  cbn [Js.Array_sort] in *.
  destruct (Js.Array_insert by_priority y (Js.Array_sort by_priority l)) as [|d' rest];
    [discriminate|].
  injection Hh as ->. cbn [Js.Array_insert].
  destruct (by_priority x d <=? 0) eqn:Hc.
  - apply by_priority_le in Hc. unfold le_priority in Hc.
    exists x, [], (y :: l). rewrite Hl. cbn. repeat split; auto.
    apply Forall_app. split; [|constructor].
    + eapply Forall_impl; [exact Hb|]. cbn. intros; lia.
    + assumption.
    + eapply Forall_impl; [exact Ha|]. cbn. intros; lia.
  - assert (~ le_priority x d) by (rewrite <- by_priority_le; congruence).
    unfold le_priority in *.
    exists d, (x :: before), after. rewrite Hl. cbn. repeat split; auto.
    constructor; [lia | assumption].
Qed.

(** ** The mail validators *)

Section Mail.

Variable this : DnsResolver.

Lemma filter_spf_total records :
  Forall (fun v => v <> []) records -> filter_spf records = inr (spf_records records).
Proof.
  induction 1 as [|v records Hv _ IH]; cbn; [reflexivity|].
  destruct v as [|v0 v]; [congruence|]. cbn. rewrite IH.
  now destruct (Js.startsWith v0 "v=spf1").
Qed.

(** A lookup error is reported as a [DnsError]: 404 for [ENOTFOUND], 500
    for any other code. *)
Lemma catch_lookup_code message error expectedValue chain code :
  catch_lookup message error expectedValue chain (ThrowError (NodeError code)) =
  ThrowDnsError (new_DnsError message (if String.eqb code "ENOTFOUND" then 404 else 500)
                   (spread_info expectedValue (error code) chain)).
Proof. reflexivity. Qed.

(** A [DnsError] passes through the [catch] block unchanged. *)
Lemma catch_lookup_DnsError message error expectedValue chain e :
  catch_lookup message error expectedValue chain (ThrowDnsError e) = ThrowDnsError e.
Proof. reflexivity. Qed.

Lemma validateSpf_queries host : snd (validateSpf this host) = [(RecTXT, Some host)].
Proof. reflexivity. Qed.

Lemma validateMx_queries host : snd (validateMx this host) = [(RecMX, Some host)].
Proof. reflexivity. Qed.

Lemma validateDkim_not_installed keys :
  size keys <> 2%nat ->
  validateDkim this (Some keys) = (inl (ThrowDnsError dkim_not_installed), []).
Proof.
  intros Hs. unfold validateDkim, keys_length.
  destruct (Nat.eqb_spec (size keys) 2); [contradiction | reflexivity].
Qed.

Lemma validateDkim_undefined :
  validateDkim this None = (inl (ThrowDnsError dkim_not_installed), []).
Proof. reflexivity. Qed.

Lemma validateDkim_two_keys_queries keys :
  size keys = 2%nat ->
  snd (validateDkim this (Some keys)) = [(RecTXT, keys !! "selector")].
Proof.
  intros Hs. unfold validateDkim, keys_length. rewrite Hs. reflexivity.
Qed.

Lemma validateSpf_outcome host :
  well_formed_answers this (Some host) -> is_outcome (fst (validateSpf this host)) = true.
Proof.
  intros [_ Htxt]. unfold validateSpf. cbn [fst].
  destruct (resolveTxt (resolver this) (Some host)) as [code|records] eqn:Hr;
    [reflexivity|].
  rewrite (filter_spf_total _ (Htxt _ eq_refl)).
  destruct (spf_records records) as [|v [|v' rest]]; cbn; try reflexivity.
  now destruct (Js.includes _ _).
Qed.

Lemma validateMx_outcome host :
  well_formed_answers this (Some host) -> is_outcome (fst (validateMx this host)) = true.
Proof.
  intros [Hmx _]. unfold validateMx. cbn [fst].
  destruct (resolveMx (resolver this) (Some host)) as [code|addresses] eqn:Hr;
    [reflexivity|].
  destruct (Array_sort_first addresses) as (d & _ & _ & _ & Hh & _); [eauto|].
  rewrite Hh. now destruct (Js.Array_includes _ _).
Qed.

Lemma validateDkim_outcome dkim : is_outcome (fst (validateDkim this dkim)) = true.
Proof.
  destruct dkim as [keys|]; [|reflexivity].
  unfold validateDkim. destruct (negb _); [reflexivity|]. cbn [fst].
  destruct (resolveTxt _ _) as [code|records]; [reflexivity|].
  destruct records as [|v records]; [reflexivity|].
  cbn [length Nat.eqb]. now destruct (list_find _ _).
Qed.

(** [validateMail] stores the outcome of each validator in its slot. *)
Lemma validateMail_slots host dkim :
  validateMail this host dkim =
  (inr {| spf := Some (fst (validateSpf this host));
          mx := Some (fst (validateMx this host));
          dkim := Some (fst (validateDkim this dkim)) |},
   snd (validateSpf this host) ++ snd (validateMx this host) ++
   snd (validateDkim this dkim)).
Proof.
  unfold validateMail.
  destruct (validateSpf this host) as [[e1|v1] q1],
           (validateMx this host) as [[e2|v2] q2],
           (validateDkim this dkim) as [[e3|v3] q3]; reflexivity.
Qed.

End Mail.

Section MailClaims.

Variable this : DnsResolver.

Lemma validateSpf_single host records v :
  resolveTxt (resolver this) (Some host) = inr records ->
  Forall (fun v => v <> []) records ->
  spf_records records = [v] ->
  fst (validateSpf this host) =
  if Js.includes (Js.join v) ("include:" +:+ validSpf (c this))
  then inr {| valid := true; valid_hostname := Some (host +:+ ".");
              valid_recordType := RecTXT;
              valid_expectedValue :=
                Some ("v=spf1 include:" +:+ validSpf (c this) +:+ " -all") |}
  else inl (ThrowDnsError
         {| message := "'" +:+ validSpf (c this) +:+ "' is not included in spf record: '"
                       +:+ Js.join v +:+ "'";
            status := 404;
            err_hostname := Some (host +:+ ".");
            recordType := RecTXT;
            expectedValue :=
              ExpMap [(RecTXT, Some ("v=spf1 include:" +:+ validSpf (c this) +:+ " -all"))];
            originalError := CauseStr "invalid";
            chain := [ {| nr := 0; type := RecMX; hostname := Some host;
                          result := ResArr [Js.join v] |} ] |}).
Proof.
  intros Hr Hw Hv. unfold validateSpf. cbn [fst].
  rewrite Hr, (filter_spf_total _ Hw), Hv. cbn.
  now destruct (Js.includes _ _).
Qed.

Lemma validateMx_first host addresses d :
  resolveMx (resolver this) (Some host) = inr addresses ->
  head (Js.Array_sort by_priority addresses) = Some d ->
  fst (validateMx this host) =
  if Js.Array_includes (validMx (c this)) (exchange d)
  then inr {| valid := true; valid_hostname := Some (host +:+ ".");
              valid_recordType := RecMX;
              valid_expectedValue :=
                Some ("0 " +:+ Js.template (head (validMx (c this))) +:+ ".") |}
  else inl (ThrowDnsError
         {| message := "Please set '" +:+ Js.template (head (validMx (c this)))
                       +:+ "' as the MX with the highest priority.";
            status := 409;
            err_hostname := Some (host +:+ ".");
            recordType := RecMX;
            expectedValue :=
              ExpMap [(RecMX, Some ("0 " +:+ Js.template (head (validMx (c this))) +:+ "."))];
            originalError := CauseStr "invalid";
            chain := [ {| nr := 0; type := RecMX; hostname := Some host;
                          result := ResArr (map show_mx (Js.Array_sort by_priority addresses)) |} ] |}).
Proof.
  intros Hr Hh. unfold validateMx. cbn [fst]. rewrite Hr, Hh.
  now destruct (Js.Array_includes _ _).
Qed.

Lemma validateDkim_no_match keys records :
  size keys = 2%nat ->
  resolveTxt (resolver this) (keys !! "selector") = inr records ->
  records <> [] ->
  Forall (fun v => Some (Js.join v) <> keys !! "publicKey") records ->
  fst (validateDkim this (Some keys)) =
  inl (ThrowDnsError
    {| message := "Correct DKIM record was not found";
       status := 404;
       err_hostname := keys !! "selector";
       recordType := RecTXT;
       expectedValue :=
         match keys !! "publicKey" with
         | Some s => ExpMap [(RecTXT, Some s)]
         | None => ExpUndefined
         end;
       originalError := CauseStr "ENOTFOUND";
       chain := [ {| nr := 0; type := RecTXT; hostname := keys !! "selector";
                     result := ResStr "invalid" |} ] |}).
Proof.
  intros Hs Hr Hne Hall. unfold validateDkim, keys_length. rewrite Hs. cbn [Nat.eqb negb fst].
  rewrite Hr. destruct records as [|v records]; [congruence|]. cbn [length Nat.eqb].
  rewrite (proj2 (list_find_None _ _) Hall). cbn.
  unfold new_DnsError, spread_info. cbn. now destruct (keys !! "publicKey").
Qed.

Lemma validateWeb_error host e w :
  validateWeb this host = (inl e, w) -> status e = 400 /\ chain e = w_chain w.
Proof.
  unfold validateWeb. destruct (validateCname _ _ _) as [[err|[]] w'];
    intros [= <- <-]; auto.
Qed.

(** C4 (as amended). On a mismatch the SPF validator's error has status 404
    and the raw SPF string in its chain; the MX validator's error has
    status 409 (conflict) and the sorted priority-exchange pairs in its
    chain; the DKIM validator's error has status 404 and leaves its chain
    entry "invalid", without raw values; every failure of [validateWeb] has
    status 400 and carries the chain walked. *)
Theorem mismatch_errors (host : string) :
  (forall records v,
      resolveTxt (resolver this) (Some host) = inr records ->
      Forall (fun v => v <> []) records ->
      spf_records records = [v] ->
      Js.includes (Js.join v) ("include:" +:+ validSpf (c this)) = false ->
      exists e, fst (validateSpf this host) = inl (ThrowDnsError e) /\
                status e = 404 /\
                chain e = [ {| nr := 0; type := RecMX; hostname := Some host;
                               result := ResArr [Js.join v] |} ]) /\
  (forall addresses d,
      resolveMx (resolver this) (Some host) = inr addresses ->
      head (Js.Array_sort by_priority addresses) = Some d ->
      exchange d ∉ validMx (c this) ->
      exists e, fst (validateMx this host) = inl (ThrowDnsError e) /\
                status e = 409 /\
                chain e = [ {| nr := 0; type := RecMX; hostname := Some host;
                               result := ResArr (map show_mx
                                           (Js.Array_sort by_priority addresses)) |} ]) /\
  (forall keys records,
      size keys = 2%nat ->
      resolveTxt (resolver this) (keys !! "selector") = inr records ->
      records <> [] ->
      Forall (fun v => Some (Js.join v) <> keys !! "publicKey") records ->
      exists e, fst (validateDkim this (Some keys)) = inl (ThrowDnsError e) /\
                status e = 404 /\
                chain e = [ {| nr := 0; type := RecTXT; hostname := keys !! "selector";
                               result := ResStr "invalid" |} ]) /\
  (forall e w, validateWeb this host = (inl e, w) -> status e = 400 /\ chain e = w_chain w).
Proof.
  repeat split.
  - intros records v Hr Hw Hv Hi.
    rewrite (validateSpf_single _ _ _ Hr Hw Hv), Hi. eauto.
  - intros addresses d Hr Hh Hd.
    rewrite (validateMx_first _ _ _ Hr Hh).
    destruct (Js.Array_includes _ _) eqn:Hin; [|eauto].
    apply Array_includes_elem_of in Hin. contradiction.
  - intros keys records Hs Hr Hne Hall.
    rewrite (validateDkim_no_match _ _ Hs Hr Hne Hall). eauto.
  - eapply validateWeb_error; eauto.
  - eapply validateWeb_error; eauto.
Qed.



(** C7 (as amended). When the DKIM keys argument is absent, or is an object
    whose number of own keys is not two, the dkim slot is the status-400
    error "No DKIM keys have been installed" and no DKIM lookup is issued:
    the only lookups are the TXT and MX lookups of the SPF and MX
    validators, whose outcomes fill the spf and mx slots. *)
Theorem dkim_not_installed_without_lookup (host : string)
    (dkimKeys : option (gmap string string)) :
  (dkimKeys = None \/ exists keys, dkimKeys = Some keys /\ size keys <> 2%nat) ->
  validateMail this host dkimKeys =
  (inr {| spf := Some (fst (validateSpf this host));
          mx := Some (fst (validateMx this host));
          dkim := Some (inl (ThrowDnsError dkim_not_installed)) |},
   [(RecTXT, Some host); (RecMX, Some host)]) /\
  status dkim_not_installed = 400 /\
  message dkim_not_installed = "No DKIM keys have been installed".
Proof.
  intros Hk. rewrite validateMail_slots.
  assert (validateDkim this dkimKeys = (inl (ThrowDnsError dkim_not_installed), [])) as ->.
  { destruct Hk as [-> | (keys & -> & Hs)];
      [apply validateDkim_undefined | now apply validateDkim_not_installed]. }
  auto.
Qed.

(** C8. [validateMail] never rejects: it resolves with a record whose three
    slots are assigned, each with the outcome of its own validator, which
    does not depend on the other two, and the lookups of all three
    validators are issued whatever the outcomes; when the answers of the
    resolver are well formed each slot holds a [DnsValid] or a [DnsError]. *)
Theorem validateMail_never_rejects (host : string)
    (dkimKeys : option (gmap string string)) :
  exists results,
    fst (validateMail this host dkimKeys) = inr results /\
    spf results = Some (fst (validateSpf this host)) /\
    mx results = Some (fst (validateMx this host)) /\
    dkim results = Some (fst (validateDkim this dkimKeys)) /\
    snd (validateMail this host dkimKeys) =
      (RecTXT, Some host) :: (RecMX, Some host) :: snd (validateDkim this dkimKeys) /\
    (well_formed_answers this (Some host) ->
       is_outcome (fst (validateSpf this host)) = true /\
       is_outcome (fst (validateMx this host)) = true /\
       is_outcome (fst (validateDkim this dkimKeys)) = true).
Proof.
  rewrite validateMail_slots. eexists.
  split; [reflexivity|]. split; [reflexivity|]. split; [reflexivity|].
  split; [reflexivity|]. split; [reflexivity|].
  intros Hw. split; [|split].
  - now apply validateSpf_outcome.
  - now apply validateMx_outcome.
  - apply validateDkim_outcome.
Qed.

(** C10. The precondition of the DKIM check accepts only objects with
    exactly two own keys: any other number of keys, and so an object with
    the three fields [selector], [publicKey] and [privateKey], gives the
    same status-400 error as a missing argument, with no lookup; with two
    keys the TXT lookup at the selector is issued. *)
Theorem dkim_requires_exactly_two_keys :
  (forall keys, size keys <> 2%nat ->
     validateDkim this (Some keys) = validateDkim this None) /\
  (forall selector publicKey privateKey,
     validateDkim this (Some {[ "selector" := selector; "publicKey" := publicKey;
                                "privateKey" := privateKey ]}) =
     validateDkim this None) /\
  validateDkim this None = (inl (ThrowDnsError dkim_not_installed), []) /\
  status dkim_not_installed = 400 /\
  (forall keys, size keys = 2%nat ->
     snd (validateDkim this (Some keys)) = [(RecTXT, keys !! "selector")]).
Proof.
  split; [|split; [|split; [|split]]].
  - intros keys Hs. now rewrite validateDkim_not_installed.
  - intros selector publicKey privateKey. rewrite validateDkim_not_installed; [reflexivity|].
    rewrite !map_size_insert_None, map_size_singleton; [lia | |].
    + now rewrite lookup_singleton_ne.
    + rewrite lookup_insert_ne by done. now rewrite lookup_singleton_ne.
  - apply validateDkim_undefined.
  - reflexivity.
  - apply validateDkim_two_keys_queries.
Qed.

End MailClaims.

(** ** The allow-list store *)

Module ConfigFacts.
Import Config ConfigSpec.

Lemma cloning_start st0 : cloning st0 [] st0.
Proof. split; auto; lia. Qed.

Lemma clone_array_spec st0 memo l st l' memo' st' :
  cloning st0 memo st ->
  (l < fresh st0)%positive ->
  clone_array memo l st = (l', memo', st') ->
  cloning st0 memo' st' /\ memo ⊆ memo' /\ (l, l') ∈ memo'.
Proof.
  intros [Hc Hf Hfr Hm] Hl. unfold clone_array.
  destruct (list_find _ memo) as [[i [l1 l2]]|] eqn:Hfind.
  - intros [= <- <- <-]. apply list_find_Some in Hfind as (Hi & Hp & _).
    cbn in Hp. subst l1. split; [now split|]. split; [done|].
    eapply list_elem_of_lookup_2; eauto.
  - cbn. intros [= <- <- <-]. split; [|split; [set_solver | set_solver]].
    split; cbn.
    + assumption.
    + lia.
    + intros l0 Hl0. rewrite lookup_insert_ne by lia. auto.
    + constructor; cbn.
      * split; [lia|]. unfold contents. rewrite lookup_insert_eq. cbn.
        now rewrite Hfr.
      * eapply Forall_impl; [exact Hm|]. cbn. intros [a b] [Hb Hcont]. cbn in *.
        split; [lia|]. unfold contents in *. rewrite lookup_insert_ne by lia. assumption.
Qed.

Lemma cloning_lookup st0 memo st l l' :
  cloning st0 memo st -> (l, l') ∈ memo ->
  (fresh st0 <= l' < fresh st)%positive /\
  contents (arrays st) l' = contents (arrays st0) l.
Proof.
  intros [_ _ _ Hm] Hin. rewrite Forall_forall in Hm. exact (Hm _ Hin).
Qed.

(** [get] returns fresh arrays with the contents of the configuration and
    leaves the configuration and every older array as they were. *)
Lemma get_spec st :
  allocated st (refs (configuration st)) ->
  configuration (snd (get st)) = configuration st /\
  (fresh st <= fresh (snd (get st)))%positive /\
  (forall l, (l < fresh st)%positive -> arrays (snd (get st)) !! l = arrays st !! l) /\
  Forall (fun l => (fresh st <= l < fresh (snd (get st)))%positive) (refs (fst (get st))) /\
  snapshot (get st) = current st.
Proof.
  unfold allocated, refs. rewrite !Forall_cons. intros (H4 & H6 & Hcn & Hmx & _).
  unfold get.
  destruct (clone_array [] _ st) as [[a4 m1] st1] eqn:E1.
  destruct (clone_array m1 _ st1) as [[a6 m2] st2] eqn:E2.
  destruct (clone_array m2 _ st2) as [[cn m3] st3] eqn:E3.
  destruct (clone_array m3 _ st3) as [[mx m4] st4] eqn:E4.
  destruct (clone_array_spec st _ _ _ _ _ _ (cloning_start st) H4 E1) as (C1 & S1 & I1).
  destruct (clone_array_spec st _ _ _ _ _ _ C1 H6 E2) as (C2 & S2 & I2).
  destruct (clone_array_spec st _ _ _ _ _ _ C2 Hcn E3) as (C3 & S3 & I3).
  destruct (clone_array_spec st _ _ _ _ _ _ C3 Hmx E4) as (C4 & S4 & I4).
  assert (J1 : (ipv4_ref (configuration st), a4) ∈ m4) by set_solver.
  assert (J2 : (ipv6_ref (configuration st), a6) ∈ m4) by set_solver.
  assert (J3 : (cname_ref (configuration st), cn) ∈ m4) by set_solver.
  destruct (cloning_lookup _ _ _ _ _ C4 J1) as [B1 R1].
  destruct (cloning_lookup _ _ _ _ _ C4 J2) as [B2 R2].
  destruct (cloning_lookup _ _ _ _ _ C4 J3) as [B3 R3].
  destruct (cloning_lookup _ _ _ _ _ C4 I4) as [B4 R4].
  destruct C4 as [Hc Hf Hfr _]. cbn [fst snd].
  split; [assumption|]. split; [assumption|]. split; [assumption|].
  split; [repeat constructor; cbn; lia|].
  unfold snapshot, current, read. cbn. now rewrite R1, R2, R3, R4.
Qed.

Lemma get_snapshot st :
  allocated st (refs (configuration st)) -> snapshot (get st) = current st.
Proof. intros H. apply (get_spec st H). Qed.


Lemma current_frame n st st' :
  allocated st (refs (configuration st)) ->
  (fresh st <= n)%positive ->
  configuration st' = configuration st ->
  (forall l, (l < n)%positive -> arrays st' !! l = arrays st !! l) ->
  current st' = current st.
Proof.
  unfold allocated, refs, current, read, contents. rewrite !Forall_cons.
  intros (H4 & H6 & Hcn & Hmx & _) Hn -> Hfr.
  rewrite !Hfr by lia. reflexivity.
Qed.


Lemma current_get st :
  allocated st (refs (configuration st)) -> current (snd (get st)) = current st.
Proof.
  intros Ha. destruct (get_spec st Ha) as (Hc & Hf & Hfr & _).
  apply (current_frame (fresh st)); auto. lia.
Qed.

End ConfigFacts.

Module ConfigMerge.
Import Config ConfigSpec ConfigFacts.

Lemma contents_insert_eq h l v : contents (<[l := v]> h) l = v.
Proof. unfold contents. now rewrite lookup_insert_eq. Qed.

Lemma contents_insert_ne h l l' v : l <> l' -> contents (<[l := v]> h) l' = contents h l'.
Proof. intros. unfold contents. now rewrite lookup_insert_ne. Qed.

(** With [append] the arrays of the configuration are extended in place. *)
Lemma config_update_append st p :
  separate st p ->
  fresh (config_update p true st) = fresh st /\
  refs (configuration (config_update p true st)) = refs (configuration st) /\
  current (config_update p true st) = merge_values true (current st) (arrays st) p.
Proof.
  destruct st as [h f [a4 a6 cn s mx]].
  destruct p as [b4 b6 bc bs bm].
  unfold separate, refs, provided. cbn [configuration ipv4_ref ipv6_ref cname_ref mx_ref
    p_validIpv4 p_validIpv6 p_validCname p_validMx].
  rewrite !NoDup_cons, !not_elem_of_cons. intros (Hd & Hp).
  split; [|split].
  - destruct b4, b6, bc, bs, bm; reflexivity.
  - destruct b4, b6, bc, bs, bm; reflexivity.
  - unfold current, merge_values, read.
    destruct b4, b6, bc, bs, bm; cbn in Hp |- *;
      rewrite ?Forall_cons, ?not_elem_of_cons in Hp;
      destruct_and?;
      f_equal;
      rewrite ?contents_insert_eq, ?contents_insert_ne by congruence;
      rewrite ?contents_insert_eq, ?contents_insert_ne by congruence;
      rewrite ?contents_insert_eq, ?contents_insert_ne by congruence;
      rewrite ?contents_insert_eq, ?contents_insert_ne by congruence;
      reflexivity.
Qed.

(** Without [append] the configuration takes the arrays of the argument. *)
Lemma config_update_replace st p :
  fresh (config_update p false st) = fresh st /\
  arrays (config_update p false st) = arrays st /\
  current (config_update p false st) = merge_values false (current st) (arrays st) p.
Proof.
  destruct st as [h f [a4 a6 cn s mx]].
  destruct p as [b4 b6 bc bs bm].
  unfold current, merge_values, read.
  destruct b4, b6, bc, bs, bm; cbn; auto.
Qed.

Lemma config_update_replace_refs (P : loc -> Prop) st p :
  Forall P (refs (configuration st) ++ provided p) ->
  Forall P (refs (configuration (config_update p false st))).
Proof.
  destruct st as [h f [a4 a6 cn s mx]].
  destruct p as [b4 b6 bc bs bm].
  unfold refs, provided.
  destruct b4, b6, bc, bs, bm; cbn;
    rewrite ?Forall_cons, ?Forall_nil; tauto.
Qed.

(** After [reset] the configuration holds four new empty arrays and the
    empty SPF value. *)
Lemma reset_update_empty st :
  current (reset_update st) = empty_configuration /\
  allocated (reset_update st) (refs (configuration (reset_update st))).
Proof.
  destruct st as [h f o]. split.
  - unfold current, read, empty_configuration. cbn. f_equal.
    all: rewrite ?contents_insert_ne by lia; apply contents_insert_eq.
  - unfold allocated, refs. cbn. repeat constructor; lia.
Qed.

Lemma reset_empty st :
  snapshot (reset st) = empty_configuration /\
  current (snd (reset st)) = empty_configuration.
Proof.
  destruct (reset_update_empty st) as [Hc Ha]. unfold reset. split.
  - now rewrite get_snapshot.
  - rewrite <- Hc. now apply current_get.
Qed.

Lemma allocated_get st :
  allocated st (refs (configuration st)) ->
  allocated (snd (get st)) (refs (configuration (snd (get st)))).
Proof.
  intros Ha. destruct (get_spec st Ha) as (Hc & Hf & _).
  unfold allocated in *. rewrite Hc.
  eapply Forall_impl; [exact Ha|]. cbv beta. intros; lia.
Qed.

End ConfigMerge.

Module ConfigClaims.
Import Config ConfigSpec ConfigFacts ConfigMerge.



End ConfigClaims.

(** ** The statements at concrete zones *)

Lemma mail_zone_well_formed mxs spfv :
  well_formed_answers (mail_instance mxs spfv) (Some "example.com").
Proof.
  split.
  - intros addresses [= <-]. discriminate.
  - intros records [= <-]. repeat constructor; discriminate.
Qed.

(** The example of the specification: priority 5 wins; with ["b"] allowed
    the validation fails and the chain lists both pairs by priority. *)
Example validateMx_priority_5_wins :
  fst (validateMx (mail_instance ["a"] "") "example.com") =
    inr {| valid := true; valid_hostname := Some "example.com.";
           valid_recordType := RecMX; valid_expectedValue := Some "0 a." |} /\
  exists e,
    fst (validateMx (mail_instance ["b"] "") "example.com") = inl (ThrowDnsError e) /\
    chain e = [ {| nr := 0; type := RecMX; hostname := Some "example.com";
                   result := ResArr ["5 a"; "10 b"] |} ].
Proof. split; [|eexists; split]; vm_compute; reflexivity. Qed.

(** Counterexample to C4 as stated: the MX mismatch error has status 409. *)
Lemma mx_mismatch_is_not_404 :
  ~ (forall this host addresses d e,
        resolveMx (resolver this) (Some host) = inr addresses ->
        head (Js.Array_sort by_priority addresses) = Some d ->
        exchange d ∉ validMx (c this) ->
        fst (validateMx this host) = inl (ThrowDnsError e) ->
        status e = 404).
Proof.
  intros H.
  assert (E : exists e, fst (validateMx (mail_instance ["b"] "") "example.com")
                        = inl (ThrowDnsError e) /\ status e = 409).
  { eexists. split; vm_compute; reflexivity. }
  destruct E as (e & He & Hst).
  assert (Hout : exchange {| priority := 5; exchange := "a" |}
                 ∉ validMx (c (mail_instance ["b"] ""))).
  { intros Hin. apply Array_includes_elem_of in Hin. discriminate Hin. }
  specialize (H (mail_instance ["b"] "") "example.com" _ _ e eq_refl eq_refl Hout He).
  rewrite Hst in H. discriminate H.
Qed.

(** The four mismatches on [mail_zone]. *)
Lemma mismatch_errors_witness :
  (exists e, fst (validateSpf (mail_instance ["b"] "mail.example") "example.com")
             = inl (ThrowDnsError e) /\
             status e = 404 /\
             chain e = [ {| nr := 0; type := RecMX; hostname := Some "example.com";
                            result := ResArr ["v=spf1 include:evil.example -all"] |} ]) /\
  (exists e, fst (validateMx (mail_instance ["b"] "mail.example") "example.com")
             = inl (ThrowDnsError e) /\
             status e = 409 /\
             chain e = [ {| nr := 0; type := RecMX; hostname := Some "example.com";
                            result := ResArr ["5 a"; "10 b"] |} ]) /\
  (exists e, fst (validateDkim (mail_instance ["b"] "mail.example")
                    (Some {[ "selector" := "sel"; "publicKey" := "other" ]}))
             = inl (ThrowDnsError e) /\
             status e = 404 /\
             chain e = [ {| nr := 0; type := RecTXT; hostname := Some "sel";
                            result := ResStr "invalid" |} ]) /\
  (exists e w, validateWeb (mail_instance ["b"] "mail.example") "example.com" = (inl e, w) /\
               status e = 400 /\ chain e = w_chain w).
Proof.
  destruct (mismatch_errors (mail_instance ["b"] "mail.example") "example.com")
    as (Hspf & Hmx & Hdkim & Hweb).
  split; [|split; [|split]].
  - destruct (Hspf [["v=spf1 include:evil.example -all"]; ["unrelated"]]
                   ["v=spf1 include:evil.example -all"]) as (e & He & Hs & Hc).
    + reflexivity.
    + repeat constructor; discriminate.
    + reflexivity.
    + vm_compute. reflexivity.
    + exists e. rewrite Hc. auto.
  - destruct (Hmx [ {| priority := 10; exchange := "b" |}; {| priority := 5; exchange := "a" |} ]
                  {| priority := 5; exchange := "a" |}) as (e & He & Hs & Hc).
    + reflexivity.
    + reflexivity.
    + intros Hin. apply Array_includes_elem_of in Hin. discriminate Hin.
    + exists e. rewrite Hc. auto.
  - destruct (Hdkim {[ "selector" := "sel"; "publicKey" := "other" ]} [["k1"; "k2"]])
      as (e & He & Hs & Hc).
    + vm_compute. reflexivity.
    + vm_compute. reflexivity.
    + discriminate.
    + repeat constructor. vm_compute. discriminate.
    + exists e. rewrite Hc. split; [exact He|]. split; [exact Hs|].
      vm_compute. reflexivity.
  - destruct (validateWeb (mail_instance ["b"] "mail.example") "example.com")
      as [[e|[]] w] eqn:Hv.
    + exists e, w. split; [reflexivity|]. now apply Hweb.
    + vm_compute in Hv. discriminate Hv.
Defined.



(** Counterexample to C7 as stated: keys without a public key, but two in
    number, pass the precondition; the TXT lookup at the selector is issued
    and the dkim slot is a 404 error. *)
Lemma dkim_keys_without_public_key_are_looked_up :
  let keys : gmap string string := {[ "selector" := "sel"; "privateKey" := "k" ]} in
  keys !! "publicKey" = None /\
  exists results e,
    validateMail (mail_instance ["a"] "evil.example") "example.com" (Some keys) =
      (inr results,
       [(RecTXT, Some "example.com"); (RecMX, Some "example.com"); (RecTXT, Some "sel")]) /\
    dkim results = Some (inl (ThrowDnsError e)) /\
    status e = 404 /\
    message e = "Correct DKIM record was not found".
Proof.
  cbv zeta. split; [vm_compute; reflexivity|].
  eexists _, _. split; [vm_compute; reflexivity|].
  cbn. auto.
Qed.

(** Keys with a selector only. *)
Lemma dkim_not_installed_without_lookup_witness :
  size ({[ "selector" := "sel" ]} : gmap string string) <> 2%nat /\
  validateMail (mail_instance ["a"] "evil.example") "example.com"
    (Some {[ "selector" := "sel" ]}) =
  (inr {| spf := Some (fst (validateSpf (mail_instance ["a"] "evil.example") "example.com"));
          mx := Some (fst (validateMx (mail_instance ["a"] "evil.example") "example.com"));
          dkim := Some (inl (ThrowDnsError dkim_not_installed)) |},
   [(RecTXT, Some "example.com"); (RecMX, Some "example.com")]).
Proof.
  assert (Hs : size ({[ "selector" := "sel" ]} : gmap string string) <> 2%nat).
  { vm_compute. discriminate. }
  split; [exact Hs|].
  apply (dkim_not_installed_without_lookup (mail_instance ["a"] "evil.example") "example.com").
  right. eexists. split; [reflexivity | exact Hs].
Defined.

(** All three checks on [mail_zone]. *)
Lemma validateMail_never_rejects_witness :
  well_formed_answers (mail_instance ["a"] "evil.example") (Some "example.com") /\
  exists results,
    fst (validateMail (mail_instance ["a"] "evil.example") "example.com"
           (Some {[ "selector" := "sel"; "publicKey" := "k1k2" ]})) = inr results /\
    (exists s, spf results = Some s /\ is_outcome s = true) /\
    (exists s, mx results = Some s /\ is_outcome s = true) /\
    (exists s, dkim results = Some s /\ is_outcome s = true).
Proof.
  split; [apply mail_zone_well_formed|].
  destruct (validateMail_never_rejects (mail_instance ["a"] "evil.example") "example.com"
              (Some {[ "selector" := "sel"; "publicKey" := "k1k2" ]}))
    as (results & Hr & Hspf & Hmx & Hdkim & _ & Hout).
  destruct (Hout (mail_zone_well_formed _ _)) as (O1 & O2 & O3).
  exists results. split; [exact Hr|]. eauto 10.
Defined.

(** The three declared fields against the pair. *)
Lemma dkim_requires_exactly_two_keys_witness :
  size ({[ "selector" := "sel"; "publicKey" := "k1k2"; "privateKey" := "k" ]}
        : gmap string string) <> 2%nat /\
  validateDkim (mail_instance ["a"] "evil.example")
    (Some {[ "selector" := "sel"; "publicKey" := "k1k2"; "privateKey" := "k" ]}) =
  validateDkim (mail_instance ["a"] "evil.example") None /\
  snd (validateDkim (mail_instance ["a"] "evil.example")
         (Some {[ "selector" := "sel"; "publicKey" := "k1k2" ]})) = [(RecTXT, Some "sel")].
Proof.
  assert (Hs : size ({[ "selector" := "sel"; "publicKey" := "k1k2"; "privateKey" := "k" ]}
                     : gmap string string) <> 2%nat).
  { vm_compute. discriminate. }
  destruct (dkim_requires_exactly_two_keys (mail_instance ["a"] "evil.example"))
    as (Hne & _ & _ & _ & Htwo).
  split; [exact Hs|]. split.
  - apply Hne. exact Hs.
  - rewrite Htwo; [reflexivity|]. vm_compute. reflexivity.
Defined.

(** ** Validation against the empty configuration *)

Section EmptyConfiguration.

Variable this : DnsResolver.

Lemma intersect_nil addresses : intersect [] addresses = [].
Proof. induction addresses; cbn; auto. Qed.

(** With no CNAME allow-listed the walk cannot succeed. *)
Lemma validateCname_empty_fails host w :
  validCname (c this) = [] ->
  exists err, fst (validateCname this host w) = inl err.
Proof.
  intros Hc.
  remember (MAX_CNAME_DEPTH - length (w_chain w))%nat as fuel eqn:Hfuel.
  revert host w Hfuel.
  induction fuel as [fuel IH] using lt_wf_ind; intros host w Hfuel.
  rewrite validateCname_step.
  destruct (resolveCname (resolver this) host) as [code|addresses]; [eauto|].
  rewrite Hc, intersect_nil. cbn [truthy_length].
  destruct (Nat.leb_spec MAX_CNAME_DEPTH (S (length (w_chain w)))) as [Hle|Hlt]; [eauto|].
  eapply IH; [|reflexivity].
  subst fuel. rewrite enter_assign. cbn [w_chain]. rewrite length_app.
  unfold MAX_CNAME_DEPTH in *. cbn. lia.
Qed.

Lemma validateWeb_empty_fails host :
  validCname (c this) = [] ->
  exists e, fst (validateWeb this host) = inl e.
Proof.
  intros Hc. unfold validateWeb.
  destruct (validateCname_empty_fails (Some host) {| w_chain := []; w_queries := [] |} Hc)
    as (err & He).
  destruct (validateCname _ _ _) as [[err'|[]] w]; [eauto | discriminate].
Qed.

(** With no MX allow-listed the MX validator cannot succeed. *)
Lemma validateMx_empty_fails host :
  validMx (c this) = [] ->
  exists err, fst (validateMx this host) = inl err.
Proof.
  intros Hc. unfold validateMx. cbn [fst]. rewrite Hc.
  destruct (resolveMx _ _) as [code|addresses]; [cbn; eauto|].
  destruct (head _); cbn; eauto.
Qed.

End EmptyConfiguration.

Lemma new_DnsResolver_global r st :
  fst (new_DnsResolver r None st) =
  {| resolver := r; c := ConfigSpec.snapshot (Config.get st) |}.
Proof.
  unfold new_DnsResolver, ConfigSpec.snapshot.
  now destruct (Config.get st) as [o st'].
Qed.

(** C3. After [reset] every field of the configuration is empty, and so is
    the configuration of an instance created from it; yet the SPF slot of
    [validateMail] is a success for a zone whose one SPF record includes any
    domain at all, here [evil.example]. *)
Theorem reset_leaves_spf_check_open (st : Config.Store) :
  let st' := snd (Config.reset st) in
  let this := fst (new_DnsResolver mail_zone None st') in
  ConfigSpec.current st' = ConfigSpec.empty_configuration /\
  c this = ConfigSpec.empty_configuration /\
  resolveTxt (resolver this) (Some "example.com") =
    inr [["v=spf1 include:evil.example -all"]; ["unrelated"]] /\
  exists results,
    fst (validateMail this "example.com" None) = inr results /\
    spf results =
      Some (inr {| valid := true; valid_hostname := Some "example.com.";
                   valid_recordType := RecTXT;
                   valid_expectedValue := Some "v=spf1 include: -all" |}).
Proof.
  cbv zeta. rewrite new_DnsResolver_global.
  destruct (ConfigMerge.reset_empty st) as [Hs Hc].
  assert (Hsnap : ConfigSpec.snapshot (Config.get (snd (Config.reset st)))
                  = ConfigSpec.empty_configuration).
  { rewrite <- Hc. apply ConfigFacts.get_snapshot.
    unfold Config.reset. apply ConfigMerge.allocated_get.
    apply ConfigMerge.reset_update_empty. }
  rewrite Hsnap. split; [exact Hc|]. split; [reflexivity|]. split; [reflexivity|].
  eexists. split; vm_compute; reflexivity.
Qed.

(** * Further properties *)

(** ** Further properties of the web walk *)

Section WebMore.

Variable this : DnsResolver.

Lemma intersect_elem_of allowed addresses x :
  x ∈ intersect allowed addresses <-> x ∈ addresses /\ x ∈ allowed.
Proof.
  unfold intersect. rewrite !list_elem_of_In, filter_In, <- !list_elem_of_In.
  now rewrite Array_includes_elem_of.
Qed.

Lemma truthy_length_true {T} (l : list T) : truthy_length l = true <-> l <> [].
Proof. destruct l; cbn; split; congruence. Qed.

(** X1. [#validateIp] asks for AAAA first and for A only when the AAAA
    lookup is rejected with [ENODATA]: any other rejection propagates, and a
    AAAA answer without an allow-listed address fails with "No valid IPv6
    addresses found", in both cases without an A lookup, whatever the A
    record is. *)
Theorem validateIp_a_only_after_no_data (host : Js.value) (w : World) :
  w_queries (snd (validateIp this host w)) =
    w_queries w ++ (RecAAAA, host) ::
      (if bool_decide (resolve6 (resolver this) host = inl "ENODATA")
       then [(RecA, host)] else []) /\
  (forall code, resolve6 (resolver this) host = inl code -> code <> "ENODATA" ->
     fst (validateIp this host w) = inl (NodeError code)) /\
  (forall addresses, resolve6 (resolver this) host = inr addresses ->
     fst (validateIp this host w) =
       if truthy_length (intersect (validIpv6 (c this)) addresses)
       then inr (intersect (validIpv6 (c this)) addresses)
       else inl (PlainError "No valid IPv6 addresses found")) /\
  (resolve6 (resolver this) host = inl "ENODATA" ->
     fst (validateIp this host w) = fst (validate4 this host (snd (validate6 this host w)))).
Proof.
  unfold validateIp, validate6.
  destruct (resolve6 (resolver this) host) as [code|addresses] eqn:H6.
  - cbn [JsError_code].
    destruct (decide (code = "ENODATA")) as [->|Hne].
    + rewrite !bool_decide_eq_true_2 by reflexivity. cbn [negb].
      split; [|split; [congruence|split; [congruence|reflexivity]]].
      unfold validate4.
      destruct (resolve4 (resolver this) host) as [code4|addresses4];
        [|destruct (truthy_length _)];
        cbn [fst snd w_queries assign_result enter];
        now rewrite <- app_assoc.
    + rewrite !bool_decide_eq_false_2 by congruence.
      cbn [negb fst snd w_queries assign_result enter].
      split; [reflexivity|]. split; [congruence|]. split; congruence.
  - rewrite (bool_decide_eq_false_2 (inr addresses = inl "ENODATA")) by congruence.
    destruct (truthy_length (intersect (validIpv6 (c this)) addresses)) eqn:Ht;
      cbn [JsError_code negb fst snd w_queries assign_result enter];
      try rewrite bool_decide_eq_false_2 by congruence;
      cbn [negb fst snd w_queries assign_result enter];
      (split; [reflexivity|]); (split; [congruence|]);
      (split; [intros ? [= <-]; now rewrite Ht | congruence]).
Qed.

(** X2. [#validate4] and [#validate6] succeed exactly when the answer holds
    an address of their own allow-list; they return the allow-listed
    addresses of the answer, in the order of the answer, and append one
    chain entry: "valid" on success, the raw answer when nothing matched,
    the code when the lookup was rejected. *)
Theorem validate4_validate6_outcome (host : Js.value) (w : World) :
  (forall addresses,
      resolve4 (resolver this) host = inr addresses ->
      ((exists l, fst (validate4 this host w) = inr l) <->
       exists a, a ∈ addresses /\ a ∈ validIpv4 (c this)) /\
      (forall l, fst (validate4 this host w) = inr l ->
         l = List.filter (fun a => bool_decide (a ∈ validIpv4 (c this))) addresses /\
         w_chain (snd (validate4 this host w)) =
           w_chain w ++ [matched RecA (length (w_chain w)) host]) /\
      (forall err, fst (validate4 this host w) = inl err ->
         err = PlainError "No valid IPv4 addresses found" /\
         w_chain (snd (validate4 this host w)) =
           w_chain w ++ [ {| nr := length (w_chain w); type := RecA; hostname := host;
                             result := ResArr addresses |} ])) /\
  (forall addresses,
      resolve6 (resolver this) host = inr addresses ->
      ((exists l, fst (validate6 this host w) = inr l) <->
       exists a, a ∈ addresses /\ a ∈ validIpv6 (c this)) /\
      (forall l, fst (validate6 this host w) = inr l ->
         l = List.filter (fun a => bool_decide (a ∈ validIpv6 (c this))) addresses /\
         w_chain (snd (validate6 this host w)) =
           w_chain w ++ [matched RecAAAA (length (w_chain w)) host]) /\
      (forall err, fst (validate6 this host w) = inl err ->
         err = PlainError "No valid IPv6 addresses found" /\
         w_chain (snd (validate6 this host w)) =
           w_chain w ++ [ {| nr := length (w_chain w); type := RecAAAA; hostname := host;
                             result := ResArr addresses |} ])) /\
  (forall code,
      resolve4 (resolver this) host = inl code ->
      validate4 this host w =
        (inl (NodeError code),
         {| w_chain := w_chain w ++ [ {| nr := length (w_chain w); type := RecA;
                                         hostname := host; result := ResStr code |} ];
            w_queries := w_queries w ++ [(RecA, host)] |})) /\
  (forall code,
      resolve6 (resolver this) host = inl code ->
      validate6 this host w =
        (inl (NodeError code),
         {| w_chain := w_chain w ++ [ {| nr := length (w_chain w); type := RecAAAA;
                                         hostname := host; result := ResStr code |} ];
            w_queries := w_queries w ++ [(RecAAAA, host)] |})).
Proof.
  assert (Hfilter : forall allowed addresses,
             intersect allowed addresses =
             List.filter (fun a => bool_decide (a ∈ allowed)) addresses).
  { intros allowed addresses. unfold intersect. apply filter_ext. intros a.
    destruct (Js.Array_includes allowed a) eqn:Hin.
    - symmetry. apply bool_decide_eq_true_2. now apply Array_includes_elem_of.
    - symmetry. apply bool_decide_eq_false_2. rewrite <- Array_includes_elem_of. congruence. }
  assert (Hex : forall allowed addresses,
             intersect allowed addresses <> [] <->
             exists a, a ∈ addresses /\ a ∈ allowed).
  { intros allowed addresses. split.
    - destruct (intersect allowed addresses) as [|a l] eqn:Hi; [congruence|]. intros _.
      exists a. apply intersect_elem_of. rewrite Hi. left.
    - intros (a & Ha) Hnil. apply intersect_elem_of in Ha. rewrite Hnil in Ha.
      inversion Ha. }
  split; [|split; [|split]].
  - intros addresses Hr. unfold validate4. rewrite Hr, !enter_assign.
    rewrite <- Hex, <- truthy_length_true, <- Hfilter.
    destruct (truthy_length _); cbn [fst snd w_chain].
    + split; [split; eauto|]. split; [intros l [= <-]; auto | discriminate].
    + split; [split; [intros [l Hl]; discriminate | discriminate]|].
      split; [discriminate | intros err [= <-]; auto].
  - intros addresses Hr. unfold validate6. rewrite Hr, !enter_assign.
    rewrite <- Hex, <- truthy_length_true, <- Hfilter.
    destruct (truthy_length _); cbn [fst snd w_chain].
    + split; [split; eauto|]. split; [intros l [= <-]; auto | discriminate].
    + split; [split; [intros [l Hl]; discriminate | discriminate]|].
      split; [discriminate | intros err [= <-]; auto].
  - intros code Hr. unfold validate4. now rewrite Hr, enter_assign.
  - intros code Hr. unfold validate6. now rewrite Hr, enter_assign.
Qed.

Lemma hops_first n host k entries last :
  hops this (S n) host k = Some (entries, last) ->
  exists addresses rest, entries = followed k host addresses :: rest.
Proof.
  cbn. destruct (resolveCname (resolver this) host) as [code|addresses]; [discriminate|].
  destruct (truthy_length _); [discriminate|].
  destruct (hops this n _ _) as [[es l]|]; [|discriminate].
  intros [= <- <-]. eauto.
Qed.

(** How a walk ends: after [n] followed answers the lookup at [last] is
    rejected, or matches, or the chain has reached the depth limit. *)
Lemma validateCname_walk host w :
  exists n entries last,
    hops this n host (length (w_chain w)) = Some (entries, last) /\
    ((exists code,
        resolveCname (resolver this) last = inl code /\
        (n = 0 \/ length (w_chain w) + n < MAX_CNAME_DEPTH)%nat /\
        validateCname this host w =
          (inl (NodeError code),
           {| w_chain := w_chain w ++ entries ++
                           [pending RecCNAME (length (w_chain w) + n) last];
              w_queries := w_queries w ++ lookups entries ++ [(RecCNAME, last)] |})) \/
     (exists addresses,
        resolveCname (resolver this) last = inr addresses /\
        intersect (validCname (c this)) addresses <> [] /\
        (n = 0 \/ length (w_chain w) + n < MAX_CNAME_DEPTH)%nat /\
        validateCname this host w =
          (inr tt,
           {| w_chain := w_chain w ++ entries ++
                           [matched RecCNAME (length (w_chain w) + n) last];
              w_queries := w_queries w ++ lookups entries ++ [(RecCNAME, last)] |})) \/
     ((0 < n)%nat /\
      (MAX_CNAME_DEPTH <= length (w_chain w) + n)%nat /\
      (n = 1 \/ length (w_chain w) + n = MAX_CNAME_DEPTH)%nat /\
      validateCname this host w =
        (inl (PlainError "CNAME record lookup exceeded maximum depth"),
         {| w_chain := w_chain w ++ entries;
            w_queries := w_queries w ++ lookups entries |}))).
Proof.
  remember (MAX_CNAME_DEPTH - length (w_chain w))%nat as fuel eqn:Hfuel.
  revert host w Hfuel.
  induction fuel as [fuel IH] using lt_wf_ind; intros host w Hfuel.
  rewrite validateCname_step.
  destruct (resolveCname (resolver this) host) as [code|addresses] eqn:Hr.
  { exists 0%nat, [], host. split; [reflexivity|]. left. exists code.
    split; [assumption|]. split; [now left|].
    unfold enter, pending. cbn. now rewrite Nat.add_0_r. }
  destruct (truthy_length (intersect (validCname (c this)) addresses)) eqn:Ht.
  { exists 0%nat, [], host. split; [reflexivity|]. right. left. exists addresses.
    split; [assumption|]. split; [now apply truthy_length_true|]. split; [now left|].
    rewrite enter_assign. unfold matched. cbn. now rewrite Nat.add_0_r. }
  rewrite enter_assign.
  destruct (Nat.leb_spec MAX_CNAME_DEPTH (S (length (w_chain w)))) as [Hle|Hlt].
  { exists 1%nat, [followed (length (w_chain w)) host addresses], (head addresses).
    split; [cbn; now rewrite Hr, Ht|]. right. right.
    split; [lia|]. split; [lia|]. split; [now left|]. reflexivity. }
  match goal with |- context [validateCname this ?h ?w2] =>
    destruct (IH (MAX_CNAME_DEPTH - length (w_chain w2))%nat) with (host := h) (w := w2)
      as (n & entries & last & Hh & Hcases)
  end.
  { subst fuel. cbn [w_chain]. rewrite length_app. unfold MAX_CNAME_DEPTH in *. cbn. lia. }
  { reflexivity. }
  cbn [w_chain w_queries] in Hh, Hcases.
  rewrite length_app in Hh, Hcases. cbn [length] in Hh, Hcases.
  rewrite Nat.add_1_r in Hh, Hcases.
  exists (S n), (followed (length (w_chain w)) host addresses :: entries), last.
  split; [cbn; now rewrite Hr, Ht, Hh|].
  rewrite <- !Nat.add_succ_comm.
  destruct Hcases as [(code & Hl & Hn & ->) | [(a & Hl & Hi & Hn & ->) | (Hn & Hd & Hm & ->)]].
  - left. exists code. split; [assumption|]. split; [right; lia|].
    cbn. now rewrite <- !app_assoc.
  - right. left. exists a. split; [assumption|]. split; [assumption|]. split; [right; lia|].
    cbn. now rewrite <- !app_assoc.
  - right. right. split; [lia|]. split; [lia|]. split; [right; lia|].
    cbn. now rewrite <- !app_assoc.
Qed.

Lemma record_type_of_last (l : list DnsChain) :
  Forall (fun e => type e = RecCNAME) l ->
  match last l with Some e => type e | None => RecCNAME end = RecCNAME.
Proof.
  intros Hl. destruct (last l) as [e|] eqn:He; [|reflexivity].
  rewrite Forall_forall in Hl. apply Hl. apply last_Some in He as [l' ->].
  apply elem_of_app. right. left.
Qed.

(** X3. [validateWeb] issues at least one and at most [MAX_CNAME_DEPTH]
    lookups, all of them CNAME lookups, the first for the hostname given;
    the chain has one entry per lookup, in order, numbered from 0. *)
Theorem validateWeb_lookup_bound (host : string) :
  (1 <= length (w_chain (snd (validateWeb this host))) <= MAX_CNAME_DEPTH)%nat /\
  w_queries (snd (validateWeb this host)) = lookups (w_chain (snd (validateWeb this host))) /\
  map nr (w_chain (snd (validateWeb this host))) =
    seq 0 (length (w_chain (snd (validateWeb this host)))) /\
  Forall (fun e => type e = RecCNAME) (w_chain (snd (validateWeb this host))) /\
  hostname <$> head (w_chain (snd (validateWeb this host))) = Some (Some host).
Proof.
  assert (Hw : snd (validateWeb this host) =
               snd (validateCname this (Some host) {| w_chain := []; w_queries := [] |})).
  { unfold validateWeb. now destruct (validateCname _ _ _) as [[err|[]] w]. }
  rewrite Hw.
  destruct (validateCname_trace this (Some host) {| w_chain := []; w_queries := [] |})
    as (es & Hc & Hq & Hn & Ht).
  destruct (validateCname_walk (Some host) {| w_chain := []; w_queries := [] |})
    as (n & entries & last & Hh & Hcases).
  cbn [w_chain w_queries length app] in *.
  pose proof (hops_length this _ _ _ _ _ Hh) as Hlen.
  rewrite Hc, Hq. split; [|split; [reflexivity|split; [assumption|split; [assumption|]]]].
  - destruct Hcases as [(code & _ & Hn' & He) | [(a & _ & _ & Hn' & He) | (Hn' & Hd & Hm & He)]];
      rewrite He in Hc; cbn [snd w_chain app] in Hc; rewrite <- Hc, ?length_app, Hlen; cbn;
      unfold MAX_CNAME_DEPTH in *; lia.
  - destruct n as [|n].
    + cbn in Hh. injection Hh as <- <-.
      destruct Hcases as [(code & _ & _ & He) | [(a & _ & _ & _ & He) | (Hn' & _)]];
        [| |lia]; rewrite He in Hc; cbn [snd w_chain app] in Hc; now rewrite <- Hc.
    + destruct (hops_first _ _ _ _ _ Hh) as (a & rest & ->).
      destruct Hcases as [(code & _ & _ & He) | [(a' & _ & _ & _ & He) | (_ & _ & _ & He)]];
        rewrite He in Hc; cbn [snd w_chain app] in Hc; now rewrite <- Hc.
Qed.

(** X4. A failure of [validateWeb] has status 400, record type CNAME and the
    first allow-listed CNAME, IPv4 and IPv6 values as expected values; its
    cause is either the rejection of the CNAME lookup that followed [n < 16]
    non-matching answers, whose chain entry stays "invalid", or the depth
    error after exactly 16 non-matching answers. *)
Theorem validateWeb_failure_cause (host : string) (e : DnsError) (w : World) :
  validateWeb this host = (inl e, w) ->
  message e = "Validating IP address failed" /\
  status e = 400 /\
  err_hostname e = Some host /\
  recordType e = RecCNAME /\
  expectedValue e = ExpMap [ (RecCNAME, head (validCname (c this)));
                             (RecA, head (validIpv4 (c this)));
                             (RecAAAA, head (validIpv6 (c this))) ] /\
  chain e = w_chain w /\
  exists n entries last,
    hops this n (Some host) 0 = Some (entries, last) /\
    ((exists code,
        (n < MAX_CNAME_DEPTH)%nat /\
        resolveCname (resolver this) last = inl code /\
        originalError e = CauseErr (NodeError code) /\
        chain e = entries ++ [pending RecCNAME n last]) \/
     (n = MAX_CNAME_DEPTH /\
      originalError e = CauseErr (PlainError "CNAME record lookup exceeded maximum depth") /\
      chain e = entries)).
Proof.
  unfold validateWeb.
  destruct (validateCname_trace this (Some host) {| w_chain := []; w_queries := [] |})
    as (es & Hc & _ & _ & Ht).
  destruct (validateCname_walk (Some host) {| w_chain := []; w_queries := [] |})
    as (n & entries & last & Hh & Hcases).
  cbn [w_chain w_queries length app] in *.
  pose proof (hops_length this _ _ _ _ _ Hh) as Hlen.
  destruct (validateCname this (Some host) _) as [[err|[]] w'] eqn:Hv; [|discriminate].
  intros [= <- <-]. cbn [snd] in Hc. cbn.
  split; [reflexivity|]. split; [reflexivity|]. split; [reflexivity|].
  split; [rewrite Hc; now apply record_type_of_last|].
  split; [reflexivity|]. split; [reflexivity|].
  exists n, entries, last. split; [assumption|].
  destruct Hcases as [(code & Hl & Hn & [= -> ->]) | [(a & _ & _ & _ & [=]) | (Hn & Hd & Hm & [= -> ->])]].
  - left. exists code. cbn. split; [|auto].
    destruct Hn as [->|Hn]; [unfold MAX_CNAME_DEPTH|]; lia.
  - right. cbn. split; [|auto]. destruct Hm as [->|Hm]; [|assumption].
    unfold MAX_CNAME_DEPTH in *. lia.
Qed.

(** X5. [validateWeb] succeeds exactly when, following first targets from
    the hostname given, one of the first 16 CNAME answers holds an
    allow-listed target; the addresses of a name play no part. *)
Theorem validateWeb_succeeds_iff (host : string) :
  fst (validateWeb this host) = inr tt <->
  exists n entries last addresses,
    (n < MAX_CNAME_DEPTH)%nat /\
    hops this n (Some host) 0 = Some (entries, last) /\
    resolveCname (resolver this) last = inr addresses /\
    intersect (validCname (c this)) addresses <> [].
Proof.
  unfold validateWeb. split.
  - destruct (validateCname_walk (Some host) {| w_chain := []; w_queries := [] |})
      as (n & entries & last & Hh & Hcases).
    cbn [w_chain length] in *.
    destruct Hcases as [(code & _ & _ & ->) | [(a & Hl & Hi & Hn & ->) | (_ & _ & _ & ->)]];
      [discriminate| |discriminate].
    intros _. exists n, entries, last, a. split; [|auto].
    destruct Hn as [->|Hn]; [unfold MAX_CNAME_DEPTH|]; lia.
  - intros (n & entries & last & addresses & Hn & Hh & Hr & Hi).
    rewrite (validateCname_hops this n (Some host) {| w_chain := []; w_queries := [] |}
               entries last) by (try exact Hh; cbn; lia).
    now rewrite (validateCname_match this _ _ _ Hr Hi).
Qed.

End WebMore.


Lemma validateIp_a_only_after_no_data_witness :
  resolve6 alias_zone (Some "v4.example") = inl "ENODATA" /\
  w_queries (snd (validateIp (web_instance [] ["192.0.2.1"] []) (Some "v4.example")
                    {| w_chain := []; w_queries := [] |})) =
    [(RecAAAA, Some "v4.example"); (RecA, Some "v4.example")] /\
  fst (validateIp (web_instance [] ["192.0.2.1"] []) (Some "edge.example")
         {| w_chain := []; w_queries := [] |}) =
    inl (PlainError "No valid IPv6 addresses found") /\
  w_queries (snd (validateIp (web_instance [] ["192.0.2.1"] []) (Some "edge.example")
                    {| w_chain := []; w_queries := [] |})) =
    [(RecAAAA, Some "edge.example")].
Proof.
  split; [reflexivity|].
  destruct (validateIp_a_only_after_no_data (web_instance [] ["192.0.2.1"] [])
              (Some "v4.example") {| w_chain := []; w_queries := [] |}) as (Hq & _).
  destruct (validateIp_a_only_after_no_data (web_instance [] ["192.0.2.1"] [])
              (Some "edge.example") {| w_chain := []; w_queries := [] |})
    as (Hq' & _ & Hans & _).
  split; [rewrite Hq; reflexivity|].
  split; [rewrite (Hans ["2001:db8::1"] eq_refl); reflexivity|].
  rewrite Hq'. reflexivity.
Defined.


Lemma validate4_validate6_outcome_witness :
  resolve4 alias_zone (Some "edge.example") = inr ["192.0.2.1"; "192.0.2.7"] /\
  fst (validate4 (web_instance [] ["192.0.2.7"; "192.0.2.1"] []) (Some "edge.example")
         {| w_chain := []; w_queries := [] |}) = inr ["192.0.2.1"; "192.0.2.7"] /\
  (exists a, a ∈ ["192.0.2.1"; "192.0.2.7"] /\ a ∈ ["192.0.2.7"; "192.0.2.1"]).
Proof.
  destruct (validate4_validate6_outcome (web_instance [] ["192.0.2.7"; "192.0.2.1"] [])
              (Some "edge.example") {| w_chain := []; w_queries := [] |}) as (H4 & _).
  destruct (H4 _ eq_refl) as (Hiff & _).
  split; [reflexivity|]. split; [vm_compute; reflexivity|].
  apply Hiff. eexists. vm_compute. reflexivity.
Defined.


Lemma validateWeb_failure_cause_witness :
  exists e w,
    validateWeb (web_instance ["other.example"] ["192.0.2.1"] []) "www.example" = (inl e, w) /\
    recordType e = RecCNAME /\
    originalError e = CauseErr (NodeError "ENODATA") /\
    chain e = [ followed 0 (Some "www.example") ["cdn.example"];
                followed 1 (Some "cdn.example") ["edge.example"; "alt.example"];
                pending RecCNAME 2 (Some "edge.example") ].
Proof.
  destruct (validateWeb (web_instance ["other.example"] ["192.0.2.1"] []) "www.example")
    as [[e|[]] w] eqn:Hv; [|vm_compute in Hv; discriminate Hv].
  exists e, w. split; [reflexivity|].
  destruct (validateWeb_failure_cause _ _ _ _ Hv) as (_ & _ & _ & Hty & _ & _ & _).
  split; [exact Hty|].
  vm_compute in Hv. injection Hv as <- <-. split; reflexivity.
Defined.

(** ** Further properties of the mail validators *)

Section MailMore.

Variable this : DnsResolver.

(** X6. A rejected lookup is reported by each mail validator as a
    [DnsError] with status 404 when the code is [ENOTFOUND] and 500 for every
    other code ([ENODATA] included); the chain entry stays "invalid". The SPF
    validator keeps the code as cause, the MX and DKIM validators the error
    object. *)
Theorem lookup_rejection_status (host : string) (keys : gmap string string) (code : string) :
  (resolveTxt (resolver this) (Some host) = inl code ->
     exists e, fst (validateSpf this host) = inl (ThrowDnsError e) /\
               status e = (if String.eqb code "ENOTFOUND" then 404 else 500) /\
               message e = "No SPF record found" /\
               originalError e = CauseStr code /\
               chain e = [pending RecMX 0 (Some host)]) /\
  (resolveMx (resolver this) (Some host) = inl code ->
     exists e, fst (validateMx this host) = inl (ThrowDnsError e) /\
               status e = (if String.eqb code "ENOTFOUND" then 404 else 500) /\
               message e = "No MX record found" /\
               originalError e = CauseErr (NodeError code) /\
               chain e = [pending RecMX 0 (Some host)]) /\
  (size keys = 2%nat ->
   resolveTxt (resolver this) (keys !! "selector") = inl code ->
     exists e, fst (validateDkim this (Some keys)) = inl (ThrowDnsError e) /\
               status e = (if String.eqb code "ENOTFOUND" then 404 else 500) /\
               message e = "No TXT records found for selector '"
                           +:+ Js.template (keys !! "selector") +:+ "'" /\
               originalError e = CauseErr (NodeError code) /\
               chain e = [pending RecTXT 0 (keys !! "selector")]).
Proof.
  split; [|split].
  - intros Hr. unfold validateSpf. cbn [fst]. rewrite Hr. cbn [try_catch].
    rewrite catch_lookup_code. eexists. split; [reflexivity|]. cbn. auto.
  - intros Hr. unfold validateMx. cbn [fst]. rewrite Hr. cbn [try_catch].
    rewrite catch_lookup_code. eexists. split; [reflexivity|]. cbn. auto.
  - intros Hs Hr. unfold validateDkim, keys_length. rewrite Hs. cbn [Nat.eqb negb fst].
    rewrite Hr. cbn [try_catch]. rewrite catch_lookup_code.
    eexists. split; [reflexivity|]. cbn. auto.
Qed.

(** X7. With two keys and a TXT answer at the selector, the DKIM check
    succeeds exactly when the segments of some record, concatenated, equal
    the [publicKey] property; an answer without records gives the 404 error
    "No TXT records found for selector", a non-empty one without such a
    record the 404 error "Correct DKIM record was not found". *)
Theorem validateDkim_exact_match (keys : gmap string string) (records : list (list string)) :
  size keys = 2%nat ->
  resolveTxt (resolver this) (keys !! "selector") = inr records ->
  ((exists v, v ∈ records /\ keys !! "publicKey" = Some (Js.join v)) ->
     fst (validateDkim this (Some keys)) =
       inr {| valid := true; valid_hostname := keys !! "selector";
              valid_recordType := RecTXT; valid_expectedValue := keys !! "publicKey" |}) /\
  (~ (exists v, v ∈ records /\ keys !! "publicKey" = Some (Js.join v)) ->
     exists e, fst (validateDkim this (Some keys)) = inl (ThrowDnsError e) /\
               status e = 404 /\
               originalError e = CauseStr "ENOTFOUND" /\
               message e =
                 match records with
                 | [] => "No TXT records found for selector '"
                         +:+ Js.template (keys !! "selector") +:+ "'"
                 | _ :: _ => "Correct DKIM record was not found"
                 end).
Proof.
  intros Hs Hr. unfold validateDkim, keys_length. rewrite Hs. cbn [Nat.eqb negb fst].
  rewrite Hr. split.
  - intros (v & Hv & Hk). destruct records as [|v0 records]; [inversion Hv|].
    cbn [length Nat.eqb].
    destruct (list_find _ (v0 :: records)) as [[i x]|] eqn:Hf; [reflexivity|].
    apply list_find_None in Hf. rewrite Forall_forall in Hf.
    exfalso. apply (Hf v Hv). now symmetry.
  - intros Hno. destruct records as [|v0 records].
    + cbn. eexists. split; [reflexivity|]. cbn. auto.
    + cbn [length Nat.eqb].
      destruct (list_find _ (v0 :: records)) as [[i x]|] eqn:Hf.
      * apply list_find_Some in Hf as (Hi & Hx & _). exfalso. apply Hno.
        exists x. split; [eapply list_elem_of_lookup_2; eauto | now symmetry].
      * cbn. eexists. split; [reflexivity|]. cbn. auto.
Qed.

Lemma filter_spf_empty_record records :
  [] ∈ records ->
  filter_spf records =
    inl (TypeError "Cannot read properties of undefined (reading 'startsWith')").
Proof.
  induction records as [|v records IH]; [intros H; inversion H|].
  intros Hin. cbn. destruct v as [|v0 v]; [reflexivity|]. cbn.
  rewrite IH; [reflexivity|]. apply elem_of_cons in Hin as [Hd|Hin]; [discriminate | assumption].
Qed.

(** X8. An answer the validators do not expect gives a [TypeError] that
    passes their [catch] blocks unwrapped: an MX answer without records in
    the MX validator, a TXT answer with a record without segments in the SPF
    validator, whatever the other records are. [validateMail] stores it in
    the slot like any other error. *)
Theorem unexpected_answers_throw_type_errors (host : string)
    (dkimKeys : option (gmap string string)) :
  (resolveMx (resolver this) (Some host) = inr [] ->
     fst (validateMx this host) =
       inl (ThrowError (TypeError "Cannot read properties of undefined (reading 'exchange')")) /\
     exists results,
       fst (validateMail this host dkimKeys) = inr results /\
       mx results =
         Some (inl (ThrowError
                 (TypeError "Cannot read properties of undefined (reading 'exchange')")))) /\
  (forall records,
     resolveTxt (resolver this) (Some host) = inr records ->
     [] ∈ records ->
     fst (validateSpf this host) =
       inl (ThrowError (TypeError "Cannot read properties of undefined (reading 'startsWith')")) /\
     exists results,
       fst (validateMail this host dkimKeys) = inr results /\
       spf results =
         Some (inl (ThrowError
                 (TypeError "Cannot read properties of undefined (reading 'startsWith')")))).
Proof.
  split.
  - intros Hr.
    assert (Hmx : fst (validateMx this host) =
                  inl (ThrowError (TypeError "Cannot read properties of undefined (reading 'exchange')"))).
    { unfold validateMx. cbn [fst]. now rewrite Hr. }
    split; [exact Hmx|]. rewrite validateMail_slots. eexists. split; [reflexivity|].
    cbn [mx]. now rewrite Hmx.
  - intros records Hr Hin.
    assert (Hspf : fst (validateSpf this host) =
                   inl (ThrowError (TypeError "Cannot read properties of undefined (reading 'startsWith')"))).
    { unfold validateSpf. cbn [fst]. now rewrite Hr, (filter_spf_empty_record _ Hin). }
    split; [exact Hspf|]. rewrite validateMail_slots. eexists. split; [reflexivity|].
    cbn [spf]. now rewrite Hspf.
Qed.


Lemma Array_insert_filter (p : N) x l :
  List.filter (fun y => N.eqb (priority y) p) (Js.Array_insert by_priority x l) =
  List.filter (fun y => N.eqb (priority y) p) (x :: l).
Proof.
  induction l as [|y l IH]; [reflexivity|].
  cbn [Js.Array_insert]. destruct (by_priority x y <=? 0) eqn:Hc; [reflexivity|].
  assert (Hlt : (priority y < priority x)%N).
  { unfold by_priority in Hc. apply Z.leb_gt in Hc. lia. }
  cbn [List.filter] in *. rewrite IH.
  destruct (N.eqb_spec (priority y) p), (N.eqb_spec (priority x) p); try reflexivity.
  lia.
Qed.

Lemma Array_sort_stable (p : N) l :
  List.filter (fun y => N.eqb (priority y) p) (Js.Array_sort by_priority l) =
  List.filter (fun y => N.eqb (priority y) p) l.
Proof.
  induction l as [|x l IH]; [reflexivity|].
  cbn [Js.Array_sort]. rewrite Array_insert_filter. cbn [List.filter]. now rewrite IH.
Qed.

(** X10. On an MX mismatch the chain lists every returned record once, as
    ["<priority> <exchange>"], by ascending priority, records of equal
    priority in the order returned. *)
Theorem validateMx_chain_order (host : string) (addresses : list MxRecord) (e : DnsError) :
  resolveMx (resolver this) (Some host) = inr addresses ->
  fst (validateMx this host) = inl (ThrowDnsError e) ->
  exists sorted,
    chain e = [ {| nr := 0; type := RecMX; hostname := Some host;
                   result := ResArr (map show_mx sorted) |} ] /\
    Permutation sorted addresses /\
    StronglySorted le_priority sorted /\
    forall p, List.filter (fun y => N.eqb (priority y) p) sorted =
              List.filter (fun y => N.eqb (priority y) p) addresses.
Proof.
  intros Hr. unfold validateMx. cbn [fst]. rewrite Hr.
  destruct (head (Js.Array_sort by_priority addresses)) as [d|] eqn:Hh; [|discriminate].
  destruct (Js.Array_includes _ _); [discriminate|]. cbn.
  intros [= <-]. cbn. exists (Js.Array_sort by_priority addresses).
  split; [reflexivity|]. split; [apply Array_sort_perm|].
  split; [apply Array_sort_sorted|]. intros p. apply Array_sort_stable.
Qed.

(** X11. Every [DnsError] of the SPF and MX validators names the hostname
    with a trailing dot, carries the one expected value under its record
    type (TXT, MX) and a chain of exactly one entry, numbered 0 and of type
    MX in both validators, for the hostname as given; its status is 404, 409
    or 500. *)
Theorem mail_error_shape (host : string) (e : DnsError) :
  (fst (validateSpf this host) = inl (ThrowDnsError e) ->
     err_hostname e = Some (host +:+ ".") /\
     recordType e = RecTXT /\
     expectedValue e =
       ExpMap [(RecTXT, Some ("v=spf1 include:" +:+ validSpf (c this) +:+ " -all"))] /\
     (exists res, chain e = [ {| nr := 0; type := RecMX; hostname := Some host;
                                 result := res |} ]) /\
     (status e = 404 \/ status e = 409 \/ status e = 500)) /\
  (fst (validateMx this host) = inl (ThrowDnsError e) ->
     err_hostname e = Some (host +:+ ".") /\
     recordType e = RecMX /\
     expectedValue e =
       ExpMap [(RecMX, Some ("0 " +:+ Js.template (head (validMx (c this))) +:+ "."))] /\
     (exists res, chain e = [ {| nr := 0; type := RecMX; hostname := Some host;
                                 result := res |} ]) /\
     (status e = 404 \/ status e = 409 \/ status e = 500)).
Proof.
  split.
  - unfold validateSpf. cbn [fst].
    destruct (resolveTxt (resolver this) (Some host)) as [code|records].
    + cbn [try_catch]. rewrite catch_lookup_code. intros [= <-]. cbn.
      destruct (String.eqb code "ENOTFOUND"); eauto 10.
    + destruct (filter_spf records) as [err|[|v [|v' rest]]]; cbn;
        rewrite ?catch_lookup_DnsError; try discriminate.
      * destruct err as [code| |]; cbn; try discriminate.
        intros [= <-]. cbn. destruct (String.eqb code "ENOTFOUND"); eauto 10.
      * intros [= <-]. cbn. eauto 10.
      * destruct (Js.includes _ _); cbn; rewrite ?catch_lookup_DnsError; [discriminate|].
        intros [= <-]. cbn. eauto 10.
      * intros [= <-]. cbn. eauto 10.
  - unfold validateMx. cbn [fst].
    destruct (resolveMx (resolver this) (Some host)) as [code|addresses].
    + cbn [try_catch]. rewrite catch_lookup_code. intros [= <-]. cbn.
      destruct (String.eqb code "ENOTFOUND"); eauto 10.
    + destruct (head _) as [d|]; cbn; [|discriminate].
      destruct (Js.Array_includes _ _); cbn; rewrite ?catch_lookup_DnsError; [discriminate|].
      intros [= <-]. cbn. eauto 10.
Qed.

End MailMore.


Lemma lookup_rejection_status_witness :
  resolveMx alias_zone (Some "example.com") = inl "ENODATA" /\
  exists e, fst (validateMx (web_instance [] [] []) "example.com") = inl (ThrowDnsError e) /\
            status e = 500.
Proof.
  split; [reflexivity|].
  destruct (lookup_rejection_status (web_instance [] [] []) "example.com" ∅ "ENODATA")
    as (_ & Hmx & _).
  destruct (Hmx eq_refl) as (e & He & Hs & _). exists e. split; [exact He | exact Hs].
Defined.

Lemma validateDkim_exact_match_witness :
  size ({[ "selector" := "sel"; "publicKey" := "k1k2" ]} : gmap string string) = 2%nat /\
  resolveTxt mail_zone (Some "sel") = inr [["k1"; "k2"]] /\
  fst (validateDkim (mail_instance [] "") (Some {[ "selector" := "sel"; "publicKey" := "k1k2" ]})) =
    inr {| valid := true; valid_hostname := Some "sel"; valid_recordType := RecTXT;
           valid_expectedValue := Some "k1k2" |} /\
  exists e,
    fst (validateDkim (mail_instance [] "") (Some {[ "selector" := "sel"; "publicKey" := "k1" ]})) =
      inl (ThrowDnsError e) /\ status e = 404.
Proof.
  assert (H1 : size ({[ "selector" := "sel"; "publicKey" := "k1k2" ]} : gmap string string) = 2%nat)
    by (vm_compute; reflexivity).
  assert (H2 : size ({[ "selector" := "sel"; "publicKey" := "k1" ]} : gmap string string) = 2%nat)
    by (vm_compute; reflexivity).
  split; [exact H1|]. split; [reflexivity|]. split.
  - destruct (validateDkim_exact_match (mail_instance [] "")
                {[ "selector" := "sel"; "publicKey" := "k1k2" ]} [["k1"; "k2"]] H1)
      as (Hyes & _); [vm_compute; reflexivity|].
    rewrite Hyes; [vm_compute; reflexivity|].
    exists ["k1"; "k2"]. split; [left | vm_compute; reflexivity].
  - destruct (validateDkim_exact_match (mail_instance [] "")
                {[ "selector" := "sel"; "publicKey" := "k1" ]} [["k1"; "k2"]] H2)
      as (_ & Hno); [vm_compute; reflexivity|].
    destruct Hno as (e & He & Hs & _).
    + intros (v & Hv & Hk). apply list_elem_of_singleton in Hv. subst v.
      vm_compute in Hk. discriminate Hk.
    + exists e. split; [exact He | exact Hs].
Defined.

(** A zone whose answers are not what the node resolver gives: no MX record
    in a resolved answer, a TXT record without segments. *)
Lemma unexpected_answers_throw_type_errors_witness :
  let r := {| resolve4 := fun _ => inl "ENODATA"; resolve6 := fun _ => inl "ENODATA";
              resolveCname := fun _ => inl "ENODATA";
              resolveMx := fun _ => inr [];
              resolveTxt := fun _ => inr [["v=spf1 include:a -all"]; []] |} in
  exists results,
    fst (validateMail {| resolver := r; c := allow_mx [] "a" |} "example.com" None) = inr results /\
    (is_outcome <$> mx results) = Some false /\
    (is_outcome <$> spf results) = Some false.
Proof.
  cbv zeta.
  set (this := {| resolver := {| resolve4 := _ |}; c := _ |}).
  destruct (unexpected_answers_throw_type_errors this "example.com" None) as (Hmx & Hspf).
  destruct (Hmx eq_refl) as (_ & results & Hr & Hm).
  destruct (Hspf _ eq_refl) as (_ & results' & Hr' & Hs).
  { right. left. }
  exists results. split; [exact Hr|].
  rewrite Hr in Hr'. injection Hr' as <-. rewrite Hm, Hs. split; reflexivity.
Defined.


Lemma validateMx_chain_order_witness :
  exists e,
    fst (validateMx (mail_instance ["b"] "") "example.com") = inl (ThrowDnsError e) /\
    chain e = [ {| nr := 0; type := RecMX; hostname := Some "example.com";
                   result := ResArr ["5 a"; "10 b"] |} ].
Proof.
  destruct (fst (validateMx (mail_instance ["b"] "") "example.com")) as [[err|e]|d] eqn:Hv;
    try (vm_compute in Hv; discriminate Hv).
  exists e. split; [reflexivity|].
  destruct (validateMx_chain_order (mail_instance ["b"] "") "example.com" _ e eq_refl Hv)
    as (sorted & Hc & _).
  vm_compute in Hv. injection Hv as <-. reflexivity.
Defined.

Lemma mail_error_shape_witness :
  exists e,
    fst (validateSpf (mail_instance [] "mail.example") "example.com") = inl (ThrowDnsError e) /\
    err_hostname e = Some "example.com." /\
    status e = 404.
Proof.
  destruct (fst (validateSpf (mail_instance [] "mail.example") "example.com"))
    as [[err|e]|d] eqn:Hv; try (vm_compute in Hv; discriminate Hv).
  exists e. split; [reflexivity|].
  destruct (mail_error_shape (mail_instance [] "mail.example") "example.com" e) as (Hspf & _).
  destruct (Hspf Hv) as (Hh & _). split; [exact Hh|].
  vm_compute in Hv. injection Hv as <-. reflexivity.
Defined.


(** ** Further properties of the allow-list store *)

Module ConfigMore.
Import Config ConfigSpec ConfigFacts ConfigMerge.

(** Writes outside a set of references leave the arrays in it untouched. *)
Lemma mutate_outside (ls : list loc) writes st :
  Forall (fun lv => fst lv ∉ ls) writes ->
  configuration (mutate writes st) = configuration st /\
  fresh (mutate writes st) = fresh st /\
  (forall l, l ∈ ls -> arrays (mutate writes st) !! l = arrays st !! l).
Proof.
  induction 1 as [|[l v] writes Hl _ IH]; cbn; [auto|].
  destruct IH as (Hc & Hf & Hfr). split; [assumption|]. split; [assumption|].
  intros l0 Hl0. cbn in Hl. rewrite lookup_insert_ne by (intros ->; contradiction). auto.
Qed.

Lemma current_outside st st' :
  configuration st' = configuration st ->
  (forall l, l ∈ refs (configuration st) -> arrays st' !! l = arrays st !! l) ->
  current st' = current st.
Proof.
  intros Hc Hfr. unfold current, read, contents. rewrite Hc.
  rewrite !Hfr by (unfold refs; set_solver). reflexivity.
Qed.

Lemma read_frame n h h' o :
  Forall (fun l => (l < n)%positive) (refs o) ->
  (forall l, (l < n)%positive -> h' !! l = h !! l) ->
  read h' o = read h o.
Proof.
  unfold refs, read, contents. rewrite !Forall_cons. intros (H4 & H6 & Hcn & Hmx & _) Hfr.
  now rewrite !Hfr by assumption.
Qed.

Lemma config_update_append_frame st p l :
  l ∉ refs (configuration st) ->
  arrays (config_update p true st) !! l = arrays st !! l.
Proof.
  destruct st as [h f [a4 a6 cn s mx]]. destruct p as [b4 b6 bc bs bm].
  unfold refs. cbn [configuration ipv4_ref ipv6_ref cname_ref mx_ref].
  rewrite !not_elem_of_cons. intros (H4 & H6 & Hcn & Hmx & _).
  destruct b4, b6, bc, bs, bm; cbn; rewrite ?lookup_insert_ne by congruence; reflexivity.
Qed.

Lemma config_update_append_refs st p :
  fresh (config_update p true st) = fresh st /\
  refs (configuration (config_update p true st)) = refs (configuration st).
Proof.
  destruct st as [h f [a4 a6 cn s mx]]. destruct p as [b4 b6 bc bs bm].
  destruct b4, b6, bc, bs, bm; split; reflexivity.
Qed.

Lemma config_update_replace_ref st p :
  configuration (config_update p false st) =
  {| ipv4_ref := default (ipv4_ref (configuration st)) (p_validIpv4 p);
     ipv6_ref := default (ipv6_ref (configuration st)) (p_validIpv6 p);
     cname_ref := default (cname_ref (configuration st)) (p_validCname p);
     spf_val := default (spf_val (configuration st)) (p_validSpf p);
     mx_ref := default (mx_ref (configuration st)) (p_validMx p) |}.
Proof.
  destruct st as [h f [a4 a6 cn s mx]]. destruct p as [b4 b6 bc bs bm].
  destruct b4, b6, bc, bs, bm; reflexivity.
Qed.

Lemma reset_update_frame st :
  fresh (reset_update st) = Pos.succ (Pos.succ (Pos.succ (Pos.succ (fresh st)))) /\
  Forall (fun l => (fresh st <= l)%positive) (refs (configuration (reset_update st))) /\
  (forall l, (l < fresh st)%positive -> arrays (reset_update st) !! l = arrays st !! l).
Proof.
  destruct st as [h f o]. cbn. split; [reflexivity|]. split.
  - repeat constructor; cbn; lia.
  - intros l Hl. now rewrite !lookup_insert_ne by lia.
Qed.


(** X13. Without [append] the configuration takes the array of the argument
    itself, not a copy: whatever is written to that array afterwards is what
    the configuration holds and what a later [get] returns for the field. *)
Theorem replace_shares_the_argument_array (st : Store) (p : Partial) (a : loc)
    (v : list string) :
  allocated st (refs (configuration st) ++ provided p) ->
  (p_validIpv4 p = Some a ->
     validIpv4 (snapshot (get (write_array a v (snd (config p false st))))) = v) /\
  (p_validIpv6 p = Some a ->
     validIpv6 (snapshot (get (write_array a v (snd (config p false st))))) = v) /\
  (p_validCname p = Some a ->
     validCname (snapshot (get (write_array a v (snd (config p false st))))) = v) /\
  (p_validMx p = Some a ->
     validMx (snapshot (get (write_array a v (snd (config p false st))))) = v).
Proof.
  intros Ha. unfold config.
  pose proof (config_update_replace_refs _ st p Ha) as Hal.
  destruct (config_update_replace st p) as (Hf & _ & _).
  rewrite <- Hf in Hal. fold (allocated (config_update p false st)
                                (refs (configuration (config_update p false st)))) in Hal.
  destruct (get_spec _ Hal) as (Hc & Hfr & _).
  assert (Hsnap : snapshot (get (write_array a v (snd (get (config_update p false st))))) =
                  current (write_array a v (snd (get (config_update p false st))))).
  { apply get_snapshot. unfold allocated in *. cbn [write_array configuration fresh].
    rewrite Hc. eapply Forall_impl; [exact Hal|]. cbv beta. intros; lia. }
  rewrite Hsnap. unfold current, read. cbn [write_array configuration arrays].
  rewrite Hc, config_update_replace_ref.
  cbn [validIpv4 validIpv6 validCname validMx ipv4_ref ipv6_ref cname_ref mx_ref].
  repeat split; intros ->; cbn [default]; apply contents_insert_eq.
Qed.

(** X14. With [append] the values of the argument are copied: whatever is
    written to the arrays of the argument afterwards, the configuration and
    a later [get] keep the merged values. *)
Theorem append_copies_the_argument_arrays (st : Store) (p : Partial)
    (writes : list (loc * list string)) :
  allocated st (refs (configuration st) ++ provided p) ->
  separate st p ->
  Forall (fun lv => fst lv ∈ provided p) writes ->
  current (mutate writes (snd (config p true st))) =
    merge_values true (current st) (arrays st) p /\
  snapshot (get (mutate writes (snd (config p true st)))) =
    merge_values true (current st) (arrays st) p.
Proof.
  intros Ha Hsep Hw. unfold config.
  destruct (config_update_append st p Hsep) as (Hf & Hr & Hcur).
  apply Forall_app in Ha as [Hac Hap].
  assert (Hal : allocated (config_update p true st)
                  (refs (configuration (config_update p true st)))).
  { unfold allocated in *. now rewrite Hf, Hr. }
  destruct (get_spec _ Hal) as (Hc & Hfr & _).
  pose proof (current_get _ Hal) as Hcg.
  assert (Hout : Forall (fun lv => fst lv ∉ refs (configuration (snd (get (config_update p true st)))))
                   writes).
  { rewrite Hc, Hr. destruct Hsep as [_ Hdis]. rewrite Forall_forall in Hdis.
    eapply Forall_impl; [exact Hw|]. cbv beta. intros lv Hin. now apply Hdis. }
  destruct (mutate_outside _ _ (snd (get (config_update p true st))) Hout) as (Mc & Mf & Mfr).
  assert (Hm : current (mutate writes (snd (get (config_update p true st)))) =
               merge_values true (current st) (arrays st) p).
  { rewrite <- Hcur, <- Hcg. now apply current_outside. }
  split; [exact Hm|]. rewrite get_snapshot; [exact Hm|].
  unfold allocated in *. rewrite Mc, Mf, Hc.
  eapply Forall_impl; [exact Hal|]. cbv beta. intros; lia.
Qed.

(** X15. [reset] gives the configuration four new arrays and leaves every
    array allocated before as it is: an array the configuration had taken
    from a caller is neither emptied nor shared any longer, so that writes
    to older arrays do not show in the configuration after [reset]. *)
Theorem reset_allocates_new_arrays (st : Store) (writes : list (loc * list string)) :
  (forall l, (l < fresh st)%positive ->
     contents (arrays (snd (reset st))) l = contents (arrays st) l) /\
  (Forall (fun lv => (fst lv < fresh st)%positive) writes ->
     current (mutate writes (snd (reset st))) = empty_configuration /\
     snapshot (get (mutate writes (snd (reset st)))) = empty_configuration).
Proof.
  unfold reset.
  destruct (reset_update_empty st) as [Hcur Hal].
  destruct (reset_update_frame st) as (Hf & Hrefs & Hfr).
  destruct (get_spec _ Hal) as (Hc & Hfg & Hfrg & _).
  split.
  - intros l Hl. unfold contents. rewrite Hfrg by (rewrite Hf; lia). now rewrite Hfr.
  - intros Hw.
    assert (Hout : Forall (fun lv => fst lv ∉ refs (configuration (snd (get (reset_update st)))))
                     writes).
    { rewrite Hc. eapply Forall_impl; [exact Hw|]. cbv beta. intros lv Hlt Hin.
      rewrite Forall_forall in Hrefs. specialize (Hrefs _ Hin). unfold loc in *. lia. }
    destruct (mutate_outside _ _ (snd (get (reset_update st))) Hout) as (Mc & Mf & Mfr).
    assert (Hm : current (mutate writes (snd (get (reset_update st)))) = empty_configuration).
    { rewrite <- Hcur, <- (current_get _ Hal). now apply current_outside. }
    split; [exact Hm|]. rewrite get_snapshot; [exact Hm|].
    unfold allocated in *. rewrite Mc, Mf, Hc.
    eapply Forall_impl; [exact Hal|]. cbv beta. intros; lia.
Qed.


(** X17. Every [get] returns arrays of its own: the arrays of a copy are
    neither arrays of the configuration nor arrays of the copy returned
    before; both copies hold the values of the configuration, which [get]
    leaves as it is. *)
Theorem get_returns_new_arrays (st : Store) :
  allocated st (refs (configuration st)) ->
  snapshot (get st) = current st /\
  snapshot (get (snd (get st))) = current st /\
  current (snd (get (snd (get st)))) = current st /\
  Forall (fun l => l ∉ refs (configuration st)) (refs (fst (get st))) /\
  Forall (fun l => (l ∉ refs (configuration st)) /\ (l ∉ refs (fst (get st))))
    (refs (fst (get (snd (get st))))).
Proof.
  intros Ha.
  destruct (get_spec _ Ha) as (Hc & Hf & _ & Hrefs & Hsnap).
  pose proof (allocated_get _ Ha) as Ha1.
  destruct (get_spec _ Ha1) as (Hc1 & Hf1 & _ & Hrefs1 & Hsnap1).
  pose proof (current_get _ Ha) as Hcg. pose proof (current_get _ Ha1) as Hcg1.
  split; [assumption|]. split; [congruence|]. split; [congruence|].
  unfold allocated in Ha. rewrite Forall_forall in Ha, Hrefs.
  split.
  - apply Forall_forall. intros l Hl Hin. specialize (Ha _ Hin). specialize (Hrefs _ Hl). lia.
  - eapply Forall_impl; [exact Hrefs1|]. cbv beta. intros l Hl. split; intros Hin.
    + specialize (Ha _ Hin). lia.
    + specialize (Hrefs _ Hin). lia.
Qed.

(** X18. A copy is not linked to the configuration: the values a copy
    returned by [get] holds, and so the configuration of an instance
    constructed without argument, are those of the configuration at that
    moment and stay so through a later [config], with or without [append],
    and a later [reset]. *)
Theorem copy_survives_later_updates (r : Resolver) (st : Store) (p : Partial)
    (append : bool) :
  allocated st (refs (configuration st)) ->
  allocated (snd (get st)) (provided p) ->
  c (fst (new_DnsResolver r None st)) = current st /\
  read (arrays (snd (config p append (snd (get st))))) (fst (get st)) = current st /\
  read (arrays (snd (reset (snd (get st))))) (fst (get st)) = current st.
Proof.
  intros Ha Hp.
  destruct (get_spec _ Ha) as (Hc & Hf & Hfr & Hrefs & Hsnap).
  pose proof (allocated_get _ Ha) as Ha1.
  set (st1 := snd (get st)) in *. set (o := fst (get st)) in *.
  assert (Hbelow : Forall (fun l => (l < fresh st1)%positive) (refs o)).
  { eapply Forall_impl; [exact Hrefs|]. cbv beta. intros; lia. }
  assert (Hread : read (arrays st1) o = current st) by exact Hsnap.
  split; [|split].
  - rewrite new_DnsResolver_global. exact Hsnap.
  - rewrite <- Hread. unfold config.
    assert (Hup : fresh (config_update p append st1) = fresh st1 /\
                  allocated (config_update p append st1)
                    (refs (configuration (config_update p append st1))) /\
                  forall l, l ∈ refs o ->
                    arrays (config_update p append st1) !! l = arrays st1 !! l).
    { destruct append.
      - destruct (config_update_append_refs st1 p) as (Hfu & Hru).
        split; [assumption|]. split; [unfold allocated in *; now rewrite Hfu, Hru|].
        intros l Hl. apply config_update_append_frame. rewrite Hc. intros Hin.
        unfold allocated in Ha. rewrite Forall_forall in Ha, Hrefs.
        specialize (Ha _ Hin). specialize (Hrefs _ Hl). lia.
      - destruct (config_update_replace st1 p) as (Hfu & Hau & _).
        split; [assumption|]. split; [|intros; now rewrite Hau].
        unfold allocated. rewrite Hfu. apply config_update_replace_refs.
        apply Forall_app. split; assumption. }
    destruct Hup as (Hfu & Hau & Hframe).
    destruct (get_spec _ Hau) as (_ & _ & Hfrg & _).
    unfold read, contents. unfold refs in Hframe, Hbelow. rewrite !Forall_cons in Hbelow.
    destruct Hbelow as (B4 & B6 & Bc & Bm & _).
    rewrite !Hfrg by (rewrite Hfu; assumption).
    rewrite !Hframe by set_solver. reflexivity.
  - rewrite <- Hread. unfold reset.
    destruct (reset_update_empty st1) as [_ Hal].
    destruct (reset_update_frame st1) as (Hfu & _ & Hfru).
    destruct (get_spec _ Hal) as (_ & _ & Hfrg & _).
    apply (read_frame (fresh st1)); [assumption|].
    intros l Hl. rewrite Hfrg by (rewrite Hfu; lia). now apply Hfru.
Qed.

Lemma one_address_allocated :
  allocated (snd one_address)
    (refs (configuration (snd one_address)) ++ provided (fst one_address)).
Proof. repeat constructor. Qed.

Lemma one_address_separate : separate (snd one_address) (fst one_address).
Proof.
  split; apply (bool_decide_unpack _); vm_compute; exact I.
Qed.

(** The argument's array, written after a replacing merge, is read back. *)
Lemma replace_shares_the_argument_array_witness :
  p_validIpv4 (fst one_address) = Some 5%positive /\
  validIpv4 (snapshot (get (write_array 5%positive ["6.6.6.6"]
                              (snd (config (fst one_address) false (snd one_address)))))) =
    ["6.6.6.6"].
Proof.
  split; [reflexivity|].
  apply (replace_shares_the_argument_array (snd one_address) (fst one_address) 5%positive
           ["6.6.6.6"] one_address_allocated).
  reflexivity.
Defined.

(** The same write after an appending merge is not. *)
Lemma append_copies_the_argument_arrays_witness :
  validIpv4 (snapshot (get (mutate [(5%positive, ["6.6.6.6"])]
                              (snd (config (fst one_address) true (snd one_address)))))) =
    ["1.1.1.1"].
Proof.
  destruct (append_copies_the_argument_arrays (snd one_address) (fst one_address)
              [(5%positive, ["6.6.6.6"])] one_address_allocated one_address_separate)
    as (_ & Hget).
  { repeat constructor. }
  rewrite Hget. vm_compute. reflexivity.
Defined.

(** A replacing merge, then [reset]: the caller's array keeps its address,
    and a write to it no longer shows. *)
Lemma reset_allocates_new_arrays_witness :
  contents (arrays (snd (reset (snd (config (fst one_address) false (snd one_address))))))
    5%positive = ["1.1.1.1"] /\
  validIpv4 (snapshot (get (mutate [(5%positive, ["6.6.6.6"])]
               (snd (reset (snd (config (fst one_address) false (snd one_address)))))))) = [].
Proof.
  destruct (reset_allocates_new_arrays
              (snd (config (fst one_address) false (snd one_address)))
              [(5%positive, ["6.6.6.6"])]) as (Hkeep & Hsev).
  split.
  - rewrite Hkeep; [vm_compute; reflexivity|]. vm_compute. reflexivity.
  - destruct Hsev as (_ & Hget).
    + repeat constructor.
    + now rewrite Hget.
Defined.


Lemma get_returns_new_arrays_witness :
  refs (fst (get initial)) = [5; 6; 7; 8]%positive /\
  refs (fst (get (snd (get initial)))) = [9; 10; 11; 12]%positive /\
  snapshot (get (snd (get initial))) = current initial.
Proof.
  destruct (get_returns_new_arrays initial) as (_ & H2 & _).
  { repeat constructor. }
  split; [vm_compute; reflexivity|]. split; [vm_compute; reflexivity|]. exact H2.
Defined.

Lemma copy_survives_later_updates_witness :
  validIpv4 (read (arrays (snd (config (fst one_address) true (snd (get (snd one_address))))))
               (fst (get (snd one_address)))) = [] /\
  validIpv4 (current (snd (config (fst one_address) true (snd (get (snd one_address)))))) =
    ["1.1.1.1"].
Proof.
  destruct (copy_survives_later_updates only_a_record (snd one_address) (fst one_address) true)
    as (_ & Hcopy & _).
  - repeat constructor.
  - repeat constructor.
  - rewrite Hcopy. split; vm_compute; reflexivity.
Defined.

End ConfigMore.
